(** * go-binding: request binding and validation (binder.go)

    A shallow embedding of [binder.go]: the dispatch facade [Bind], the three
    entry points [Form], [MultipartForm] and [Json], the reflective walkers
    [mapForm] and [validateStruct], the coercer [setWithProperType] and the
    top-level [validate].

    Conventions of the embedding.
    - A Go panic is the [Panic] outcome of the [Res] monad; a normal return is
      [Return].
    - What Go mutates through a [reflect.Value] (the target record) is passed
      in and returned explicitly.
    - A Go slice variable of type [Errors] is represented by the list of the
      elements it shows ([s[0:len(s)]]).  Go passes the slice header by value:
      an [errors.Add] inside a callee re-assigns the callee's own variable and
      the caller's variable keeps its length and its elements (module [slice]
      and [slice_append_by_value]).  A function that takes [errors Errors]
      and has no result therefore hands no error back, and the embedding
      returns what the callee's variable held only where a statement needs
      to speak about it.
    - Named types are expanded in place: the types of the embedding are the
      Go types that do not contain themselves, and a value is a tree.  On
      these types the recursion of both walkers ends, in Go as here, so that
      a walker returns exactly when it does not panic.  A type that contains
      itself ([type Node struct{ *Node }], on which [mapForm] allocates and
      descends without end) and the cyclic values of such a type are outside
      the embedding.  Two pointers of a target that share their pointee are
      two copies of it: [validateStruct] only reads, and [mapForm] writes
      through no pointer but the ones it has just allocated.
    - A [ValidateBinder] method is the function from its receiver, the
      request and the accumulator to the errors it returns, as for the one
      of common_test.go.  A hook that panics or that writes through what its
      receiver shares with the target is outside the embedding: statements
      that would depend on it are made for types without a hook. *)

From Stdlib Require Import ZArith Lia List Bool Ascii String.
From stdpp Require Import base option list strings gmap.

Set Warnings "-register-all".

Local Open Scope string_scope.
Local Open Scope list_scope.
Local Open Scope Z_scope.

(** ** Outcomes of a call: normal return or panic *)

Inductive Res (A : Type) : Type :=
| Return (a : A)
| Panic (msg : string).
Arguments Return {A} a.
Arguments Panic {A} msg.

Definition bind {A B : Type} (m : Res A) (k : A -> Res B) : Res B :=
  match m with
  | Return a => k a
  | Panic msg => Panic msg
  end.

Notation "'let*' x ':=' m 'in' k" := (bind m (fun x => k))
  (at level 10, x name, m at level 100, k at level 200).

(** ** strconv (Go standard library), base 10 and 64 bits as binder.go calls it *)

Module strconv.

Inductive NumError := ErrSyntax | ErrRange.

Definition maxUint64 : Z := 2 ^ 64 - 1.

Definition is_digit (c : ascii) : bool :=
  (48 <=? Z.of_N (N_of_ascii c)) && (Z.of_N (N_of_ascii c) <=? 57).

Definition digit (c : ascii) : Z := Z.of_N (N_of_ascii c) - 48.

(** The digit loop of [ParseUint(s, 10, 64)]: [n] is the value read so
    far. *)
Fixpoint uint_loop (s : string) (n : Z) : Z * option NumError :=
  match s with
  | EmptyString => (n, None)
  | String c rest =>
      if negb (is_digit c) then (0, Some ErrSyntax)
      else if maxUint64 / 10 + 1 <=? n then (maxUint64, Some ErrRange)
      else
        let n1 := n * 10 + digit c in
        if maxUint64 <? n1 then (maxUint64, Some ErrRange)
        else uint_loop rest n1
  end.

Definition ParseUint (s : string) : Z * option NumError :=
  match s with
  | EmptyString => (0, Some ErrSyntax)
  | _ => uint_loop s 0
  end.

Definition ParseInt (s : string) : Z * option NumError :=
  match s with
  | EmptyString => (0, Some ErrSyntax)
  | String c rest =>
      let neg := Ascii.eqb c "-" in
      let s' := if Ascii.eqb c "+" || neg then rest else s in
      match ParseUint s' with
      | (_, Some ErrSyntax) => (0, Some ErrSyntax)
      | (un, _) =>
          let cutoff := 2 ^ 63 in
          if negb neg && (cutoff <=? un) then (cutoff - 1, Some ErrRange)
          else if neg && (cutoff <? un) then (- cutoff, Some ErrRange)
          else (if neg then - un else un, None)
      end
  end.

(** [Atoi(s)] is [ParseInt(s, 10, 0)] converted to [int] (64 bits). *)
Definition Atoi (s : string) : Z * option NumError := ParseInt s.

Definition ParseBool (s : string) : option bool :=
  if bool_decide (s ∈ ["1"; "t"; "T"; "TRUE"; "true"; "True"]) then Some true
  else if bool_decide (s ∈ ["0"; "f"; "F"; "FALSE"; "false"; "False"]) then Some false
  else None.

End strconv.

(** ** strings (Go standard library) *)

Module strings.

Fixpoint HasPrefix (s prefix : string) : bool :=
  match prefix, s with
  | EmptyString, _ => true
  | String p prefix', String c s' => Ascii.eqb c p && HasPrefix s' prefix'
  | String _ _, EmptyString => false
  end.

(** [Contains(s, substr)] *)
Fixpoint Contains (s substr : string) : bool :=
  HasPrefix s substr ||
  match s with
  | EmptyString => false
  | String _ s' => Contains s' substr
  end.

(** [Split(s, sep)] for the one-byte separator binder.go uses. *)
Fixpoint Split (s : string) (sep : ascii) : list string :=
  match s with
  | EmptyString => [EmptyString]
  | String c s' =>
      if Ascii.eqb c sep then EmptyString :: Split s' sep
      else match Split s' sep with
           | [] => [String c EmptyString]
           | w :: ws => String c w :: ws
           end
  end.

End strings.

(** ** The error accumulator *)

(** Modelled from the spec: errors.go is not among the sources.  A field error
    is a sequence of field names, a classification tag and a message; [Errors]
    is the ordered sequence of them; [Add] and [AddError] append (they have a
    pointer receiver: [var e Errors; e.Add(..)] leaves [len(e) = 1], as
    errors_test.go and [Bind] rely on). *)
Record Error : Type := NewError {
  FieldNames : list string;
  Classification : string;
  Message : string
}.

#[global] Instance Error_eq_dec : EqDecision Error.
Proof. solve_decision. Defined.

Definition Errors : Type := list Error.

Definition AddError (e : Errors) (err : Error) : Errors := e ++ [err].

Definition Add (e : Errors) (fieldNames : list string) (classification message : string) : Errors :=
  e ++ [NewError fieldNames classification message].

(** ** Slices of errors over their backing arrays

    What the representation of an [Errors] variable by the elements it shows
    rests on.  A slice is a header - backing array, length, capacity - and
    the backing arrays live in a store that all headers share.  [append]
    writes behind the length of the header it is given, or into a new array,
    and yields a new header; a caller that passed its header by value keeps
    the old one.  The lemmas [slice_append_view] and [slice_append_by_value]
    below state the two sides of this. *)

Module slice.

Record header : Type := mkHeader {
  array : nat;   (* the backing array *)
  len : nat;
  cap : nat
}.

(** [s[0:len(s)]] *)
Definition view (st : gmap nat (list Error)) (s : header) : list Error :=
  take (len s) (default [] (st !! array s)).

(** [len(s) <= cap(s)], and a backing array of [cap(s)] elements unless the
    capacity is 0 (as for the nil slice). *)
Definition valid (st : gmap nat (list Error)) (s : header) : Prop :=
  (len s <= cap s)%nat /\
  (cap s = 0%nat \/ exists arr, st !! array s = Some arr /\ length arr = cap s).

(** [append(s, e)]: in place when the capacity allows, into a larger new
    array otherwise. *)
Definition append (st : gmap nat (list Error)) (s : header) (e : Error)
    : gmap nat (list Error) * header :=
  if (len s <? cap s)%nat then
    (alter (fun arr => <[len s := e]> arr) (array s) st,
     mkHeader (array s) (S (len s)) (cap s))
  else
    let a := fresh (dom st) in
    (<[a := view st s ++ e :: replicate (cap s) (NewError [] "" "")]> st,
     mkHeader a (S (len s)) (S (len s) + cap s)).

(** The store after a sequence of callees that each received the header [s]
    by value and appended one error to their copy. *)
Fixpoint callees (st : gmap nat (list Error)) (s : header) (es : list Error)
    : gmap nat (list Error) :=
  match es with
  | [] => st
  | e :: es' => callees (fst (append st s e)) s es'
  end.

End slice.

(** Modelled from the spec: the classification constants of errors.go, named
    as the spec's taxonomy names them. *)
Definition ContentTypeError := "ContentTypeError".
Definition DeserializationError := "DeserializationError".
Definition IntegerTypeError := "IntegerTypeError".
Definition BooleanTypeError := "BooleanTypeError".
Definition FloatTypeError := "FloatTypeError".
Definition RequiredError := "RequiredError".
Definition AlphaDashError := "AlphaDashError".
Definition AlphaDashDotError := "AlphaDashDotError".
Definition MinSizeError := "MinSizeError".
Definition MaxSizeError := "MaxSizeError".
Definition EmailError := "EmailError".
Definition UrlError := "UrlError".

Definition ErrorEmptyContentType := NewError [] ContentTypeError "Empty Content-Type".
Definition ErrorUnsupportedContentType := NewError [] ContentTypeError "Unsupported Content-Type".
Definition ErrorInputNotByReference :=
  NewError [] DeserializationError "input binding model is not by reference".
Definition ErrorInputIsNotStructure :=
  NewError [] DeserializationError "binding model is required to be structure".

(** ** reflect: kinds, types, values *)

Module reflect.
Inductive Kind :=
| Bool
| Int | Int8 | Int16 | Int32 | Int64
| Uint | Uint8 | Uint16 | Uint32 | Uint64
| Float32 | Float64
| Ptr | Slice | String | Struct.

#[global] Instance Kind_eq_dec : EqDecision Kind.
Proof. solve_decision. Defined.
End reflect.

(** A struct tag as [reflect.StructTag] parses it: key/value pairs. *)
Definition StructTag : Type := list (string * string).

(** [tag.Get(key)]: the value of the first pair with that key, or the empty
    string. *)
Fixpoint Tag_Get (tag : StructTag) (key : string) : string :=
  match tag with
  | [] => ""
  | (k, v) :: tag' => if String.eqb k key then v else Tag_Get tag' key
  end.

(** [reflect.StructField], over the representation [T] of types.  [PkgPath]
    is empty exactly for an exported field. *)
Record StructField (T : Type) : Type := mkField {
  Name : string;
  PkgPath : string;
  Type_ : T;
  Tag : StructTag;
  Anonymous : bool
}.
Arguments mkField {T} _ _ _ _ _.
Arguments Name {T} _.
Arguments PkgPath {T} _.
Arguments Type_ {T} _.
Arguments Tag {T} _.
Arguments Anonymous {T} _.

Definition IsExported {T : Type} (f : StructField T) : bool := String.eqb (PkgPath f) "".

(** Widths of the integer kinds; [W] is the platform's [int]/[uint]
    (64 bits). *)
Inductive Width := W | W8 | W16 | W32 | W64.

Definition bits (w : Width) : Z :=
  match w with
  | W => 64 | W8 => 8 | W16 => 16 | W32 => 32 | W64 => 64
  end.

(** Go types that a binding target is built from. *)
Inductive type : Type :=
| TBool
| TInt (w : Width)
| TUint (w : Width)
| TFloat32
| TFloat64
| TString
| TPtr (elem : type)
| TSlice (elem : type)
| TStruct (name : string) (fields : list (StructField type)).

Definition Kind_of (t : type) : reflect.Kind :=
  match t with
  | TBool => reflect.Bool
  | TInt W => reflect.Int
  | TInt W8 => reflect.Int8
  | TInt W16 => reflect.Int16
  | TInt W32 => reflect.Int32
  | TInt W64 => reflect.Int64
  | TUint W => reflect.Uint
  | TUint W8 => reflect.Uint8
  | TUint W16 => reflect.Uint16
  | TUint W32 => reflect.Uint32
  | TUint W64 => reflect.Uint64
  | TFloat32 => reflect.Float32
  | TFloat64 => reflect.Float64
  | TString => reflect.String
  | TPtr _ => reflect.Ptr
  | TSlice _ => reflect.Slice
  | TStruct _ _ => reflect.Struct
  end.

(** Values.  An integer is its mathematical value, a float the bit pattern of
    its binary64 representation, a pointer is nil or its pointee, a slice is
    nil or its elements, a struct the values of its fields in declaration
    order. *)
Inductive value : Type :=
| VBool (b : bool)
| VInt (z : Z)
| VUint (z : Z)
| VFloat (bits64 : Z)
| VString (s : string)
| VPtr (p : option value)
| VSlice (s : option (list value))
| VStruct (fields : list value).

(** [reflect.Zero(t)] *)
Fixpoint Zero (t : type) : value :=
  match t with
  | TBool => VBool false
  | TInt _ => VInt 0
  | TUint _ => VUint 0
  | TFloat32 | TFloat64 => VFloat 0
  | TString => VString ""
  | TPtr _ => VPtr None
  | TSlice _ => VSlice None
  | TStruct _ fields => VStruct (map (fun f => Zero (Type_ f)) fields)
  end.

(** [==] on float64 bit patterns: a NaN differs from everything, the two
    zeros are equal. *)
Definition float_is_nan (b : Z) : bool :=
  (Z.land (Z.shiftr b 52) 2047 =? 2047) && negb (Z.land b (2 ^ 52 - 1) =? 0).

Definition float_eq (a b : Z) : bool :=
  if float_is_nan a || float_is_nan b then false
  else (a =? b) || ((Z.land a (2 ^ 63 - 1) =? 0) && (Z.land b (2 ^ 63 - 1) =? 0)).

(** [reflect.DeepEqual] on two values of one type (binder.go compares a
    field's value with the zero value of the field's type, never two values
    that share a pointer or a backing array). *)
Fixpoint DeepEqual (x y : value) {struct x} : bool :=
  let fix all2 (xs ys : list value) {struct xs} : bool :=
    match xs, ys with
    | [], [] => true
    | x' :: xs', y' :: ys' => DeepEqual x' y' && all2 xs' ys'
    | _, _ => false
    end in
  match x, y with
  | VBool a, VBool b => Bool.eqb a b
  | VInt a, VInt b => a =? b
  | VUint a, VUint b => a =? b
  | VFloat a, VFloat b => float_eq a b
  | VString a, VString b => String.eqb a b
  | VPtr None, VPtr None => true
  | VPtr (Some a), VPtr (Some b) => DeepEqual a b
  | VSlice None, VSlice None => true
  | VSlice (Some xs), VSlice (Some ys) => all2 xs ys
  | VStruct xs, VStruct ys => all2 xs ys
  | _, _ => false
  end.

(** Well-typed values: integers within the range of their width, pointees,
    elements and fields of the declared types. *)
Fixpoint has_type (t : type) (v : value) {struct t} : bool :=
  match t, v with
  | TBool, VBool _ => true
  | TInt w, VInt z => (- 2 ^ (bits w - 1) <=? z) && (z <? 2 ^ (bits w - 1))
  | TUint w, VUint z => (0 <=? z) && (z <? 2 ^ bits w)
  | TFloat32, VFloat _ | TFloat64, VFloat _ => true
  | TString, VString _ => true
  | TPtr _, VPtr None => true
  | TPtr e, VPtr (Some p) => has_type e p
  | TSlice _, VSlice None => true
  | TSlice e, VSlice (Some xs) => forallb (has_type e) xs
  | TStruct _ fields, VStruct vs =>
      (fix all (fs : list (StructField type)) (vs : list value) {struct fs} : bool :=
         match fs, vs with
         | [], [] => true
         | f :: fs', x :: vs' => has_type (Type_ f) x && all fs' vs'
         | _, _ => false
         end) fields vs
  | _, _ => false
  end.

(** [==] on [reflect.Type]: identical types. *)
Definition Width_eqb (a b : Width) : bool :=
  match a, b with
  | W, W | W8, W8 | W16, W16 | W32, W32 | W64, W64 => true
  | _, _ => false
  end.

Fixpoint type_eqb (a b : type) {struct a} : bool :=
  match a, b with
  | TBool, TBool | TFloat32, TFloat32 | TFloat64, TFloat64 | TString, TString => true
  | TInt w, TInt w' | TUint w, TUint w' => Width_eqb w w'
  | TPtr x, TPtr y | TSlice x, TSlice y => type_eqb x y
  | TStruct n fs, TStruct m gs =>
      String.eqb n m &&
      (fix all2 (fs gs : list (StructField type)) {struct fs} : bool :=
         match fs, gs with
         | [], [] => true
         | f :: fs', g :: gs' =>
             String.eqb (Name f) (Name g) && String.eqb (PkgPath f) (PkgPath g) &&
             type_eqb (Type_ f) (Type_ g) &&
             bool_decide (Tag f = Tag g) && Bool.eqb (Anonymous f) (Anonymous g) &&
             all2 fs' gs'
         | _, _ => false
         end) fs gs
  | _, _ => false
  end.

(** *** reflect.Value: permission flags, type, contents *)

Record flag : Type := mkFlag {
  flagStickyRO : bool;   (* obtained via an unexported not embedded field *)
  flagEmbedRO : bool;    (* obtained via an unexported embedded field *)
  flagAddr : bool        (* addressable *)
}.

Definition flagRO (fl : flag) : bool := flagStickyRO fl || flagEmbedRO fl.

Record Value : Type := mkValue {
  v_flag : flag;
  v_type : type;
  v_data : value
}.

Definition CanSet (fl : flag) : bool := flagAddr fl && negb (flagRO fl).
Definition CanInterface (fl : flag) : bool := negb (flagRO fl).

(** Flags of [v.Field(i)]: the sticky bit and addressability are inherited,
    the embed bit is not; an unexported field adds its own bit. *)
Definition Field_flag (fl : flag) (f : StructField type) : flag :=
  {| flagStickyRO := flagStickyRO fl || (negb (IsExported f) && negb (Anonymous f));
     flagEmbedRO := negb (IsExported f) && Anonymous f;
     flagAddr := flagAddr fl |}.

(** Flags of [v.Elem()] for a pointer [v]. *)
Definition Elem_flag (fl : flag) : flag :=
  {| flagStickyRO := flagStickyRO fl; flagEmbedRO := flagEmbedRO fl; flagAddr := true |}.

(** Flags of [reflect.ValueOf(x)], of [reflect.New(t)], of the elements of a
    [reflect.MakeSlice] and of [reflect.ValueOf(p).Elem()]. *)
Definition flag_value : flag := mkFlag false false false.
Definition flag_settable : flag := mkFlag false false true.

Definition mustBeAssignable (fl : flag) : Res unit :=
  if flagRO fl then Panic "reflect: value obtained using unexported field"
  else if negb (flagAddr fl) then Panic "reflect: unaddressable value"
  else Return tt.

Definition wrap_signed (n x : Z) : Z := (x + 2 ^ (n - 1)) mod 2 ^ n - 2 ^ (n - 1).
Definition wrap_unsigned (n x : Z) : Z := x mod 2 ^ n.

(** [v.SetInt(x)]: the value is converted to the field's width. *)
Definition SetInt (v : Value) (x : Z) : Res value :=
  let* _ := mustBeAssignable (v_flag v) in
  match v_type v with
  | TInt w => Return (VInt (wrap_signed (bits w) x))
  | _ => Panic "reflect: call of reflect.Value.SetInt on non-int Value"
  end.

Definition SetUint (v : Value) (x : Z) : Res value :=
  let* _ := mustBeAssignable (v_flag v) in
  match v_type v with
  | TUint w => Return (VUint (wrap_unsigned (bits w) x))
  | _ => Panic "reflect: call of reflect.Value.SetUint on non-uint Value"
  end.

Definition SetBool (v : Value) (x : bool) : Res value :=
  let* _ := mustBeAssignable (v_flag v) in
  match v_type v with
  | TBool => Return (VBool x)
  | _ => Panic "reflect: call of reflect.Value.SetBool on non-bool Value"
  end.

Definition SetString (v : Value) (x : string) : Res value :=
  let* _ := mustBeAssignable (v_flag v) in
  match v_type v with
  | TString => Return (VString x)
  | _ => Panic "reflect: call of reflect.Value.SetString on non-string Value"
  end.

(** [v.Set(x)] for an [x] of the type of [v]. *)
Definition Set_ (v : Value) (x : value) : Res value :=
  let* _ := mustBeAssignable (v_flag v) in Return x.

(** ** Collaborators outside binder.go *)

(** Go's [error] values as binder.go tells them apart: [io.EOF] and the
    rest, of which only the message is used. *)
Inductive error := io_EOF | errorString (msg : string).

Definition Error_ (e : error) : string :=
  match e with
  | io_EOF => "EOF"
  | errorString msg => msg
  end.

(** Library functions whose results binder.go consumes without looking
    inside them. *)
Class GoLibs : Type := {
  (** [strconv.ParseFloat(s, bitSize)]: the binary64 bit pattern and the
      error. *)
  ParseFloat : string -> Z -> Z * option strconv.NumError;
  (** the conversion [float32(x)], as the bit pattern of the same number *)
  float32 : Z -> Z;
  (** [regexp.MustCompile(pattern).MatchString(s)] *)
  MatchString : string -> string -> bool;
  (** [fmt.Sprintf("%v", x)] for [x] of the given dynamic type *)
  Sprintf_v : type -> value -> string;
  (** [utf8.RuneCountInString(s)] *)
  RuneCountInString : string -> Z;
  (** [json.NewDecoder(body).Decode(target)]: the target afterwards and the
      error *)
  json_Decode : string -> type -> value -> value * option error
}.

(** [mime/multipart.FileHeader] (its [Header] map is left out: no walker
    reads it) and [multipart.Form]. *)
Definition FileHeader : type :=
  TStruct "multipart.FileHeader"
    [ mkField "Filename" "" TString [] false;
      mkField "Size" "" (TInt W64) [] false;
      mkField "content" "mime/multipart" (TSlice (TUint W8)) [] false;
      mkField "tmpfile" "mime/multipart" TString [] false ].

Record multipart_Form : Type := {
  Value_ : gmap string (list string);
  File : gmap string (list value)   (* each a [*multipart.FileHeader] *)
}.

(** An [*http.Request], by what its methods hand to binder.go. *)
Record Request : Type := {
  Method : string;
  Content_Type : string;                                (* req.Header.Get("Content-Type") *)
  ParseForm : gmap string (list string) * option error; (* req.Form after req.ParseForm(), and its error *)
  req_MultipartForm : option multipart_Form;            (* req.MultipartForm; None is nil *)
  MultipartReader :                                     (* req.MultipartReader() *)
    (Z -> option multipart_Form * option error) + error;(*   its ReadForm(maxMemory), or the error *)
  Body : option string                                  (* req.Body; None is nil *)
}.

Definition set_MultipartForm (req : Request) (form : option multipart_Form) : Request :=
  {| Method := Method req; Content_Type := Content_Type req; ParseForm := ParseForm req;
     req_MultipartForm := form; MultipartReader := MultipartReader req; Body := Body req |}.

(** The method sets of the program's types: [Validator_of t] is the
    [ValidateBinder] method of dynamic type [t], when [t] implements
    [Validator].  The method is given by its result, the errors it returns
    for a receiver, a request and an accumulator; what a method may do
    besides (panic, write through its receiver) is not represented. *)
Class MethodSets : Type := {
  Validator_of : type -> option (value -> Request -> Errors -> Errors)
}.

Definition MaxMemory : Z := 1024 * 1024 * 16.

Section Binder.

Context `{GoLibs} `{MethodSets}.

Definition SetFloat (v : Value) (x : Z) : Res value :=
  let* _ := mustBeAssignable (v_flag v) in
  match v_type v with
  | TFloat32 => Return (VFloat (float32 x))
  | TFloat64 => Return (VFloat x)
  | _ => Panic "reflect: call of reflect.Value.SetFloat on non-float Value"
  end.

(** ** setWithProperType

    Returns the contents of [structField] after the call, and the value its
    own [errors] variable holds when it returns. *)
Definition setWithProperType (valueKind : reflect.Kind) (val : string) (structField : Value)
    (nameInTag : string) (errors : Errors) : Res (value * Errors) :=
  match valueKind with
  | reflect.Int | reflect.Int8 | reflect.Int16 | reflect.Int32 | reflect.Int64 =>
      let val := if String.eqb val "" then "0" else val in
      match strconv.ParseInt val with
      | (_, Some _) =>
          Return (v_data structField,
                  Add errors [nameInTag] IntegerTypeError "Value could not be parsed as integer")
      | (intVal, None) =>
          let* d := SetInt structField intVal in Return (d, errors)
      end
  | reflect.Uint | reflect.Uint8 | reflect.Uint16 | reflect.Uint32 | reflect.Uint64 =>
      let val := if String.eqb val "" then "0" else val in
      match strconv.ParseUint val with
      | (_, Some _) =>
          Return (v_data structField,
                  Add errors [nameInTag] IntegerTypeError "Value could not be parsed as unsigned integer")
      | (uintVal, None) =>
          let* d := SetUint structField uintVal in Return (d, errors)
      end
  | reflect.Bool =>
      if String.eqb val "on" then
        let* d := SetBool structField true in Return (d, errors)
      else
        let val := if String.eqb val "" then "false" else val in
        match strconv.ParseBool val with
        | None =>
            Return (v_data structField,
                    Add errors [nameInTag] BooleanTypeError "Value could not be parsed as boolean")
        | Some true => let* d := SetBool structField true in Return (d, errors)
        | Some false => Return (v_data structField, errors)
        end
  | reflect.Float32 =>
      let val := if String.eqb val "" then "0.0" else val in
      match ParseFloat val 32 with
      | (_, Some _) =>
          Return (v_data structField,
                  Add errors [nameInTag] FloatTypeError "Value could not be parsed as 32-bit float")
      | (floatVal, None) =>
          let* d := SetFloat structField floatVal in Return (d, errors)
      end
  | reflect.Float64 =>
      let val := if String.eqb val "" then "0.0" else val in
      match ParseFloat val 64 with
      | (_, Some _) =>
          Return (v_data structField,
                  Add errors [nameInTag] FloatTypeError "Value could not be parsed as 64-bit float")
      | (floatVal, None) =>
          let* d := SetFloat structField floatVal in Return (d, errors)
      end
  | reflect.String =>
      let* d := SetString structField val in Return (d, errors)
  | _ => Return (v_data structField, errors)
  end.

(** ** mapForm *)

Definition fhType : type := TPtr FileHeader.

(** The loop of lines 303-305 over the elements of the fresh slice: element
    [i] starts at the zero value and is set from [inputValue[i]]; every call
    receives the same [errors]. *)
Fixpoint setElems (sliceOf : reflect.Kind) (elem : type) (inputValue : list string)
    (nameInTag : string) (errors : Errors) : Res (list value) :=
  match inputValue with
  | [] => Return []
  | val :: rest =>
      let* r := setWithProperType sliceOf val (mkValue flag_settable elem (Zero elem))
                  nameInTag errors in
      let* rs := setElems sliceOf elem rest nameInTag errors in
      Return (fst r :: rs)
  end.

(** The third branch of the loop body (lines 292-328): a field that is
    neither an anonymous pointer nor of kind Struct and has a non-empty
    [form] tag.  Returns the contents of the field afterwards. *)
Definition mapTagged (fl : flag) (typeField : StructField type) (data : value)
    (form : gmap string (list string)) (formfile : gmap string (list value))
    (errors : Errors) : Res value :=
  let inputFieldName := Tag_Get (Tag typeField) "form" in
  let structField := mkValue fl (Type_ typeField) data in
  if negb (CanSet fl) then Return data
  else
    match form !! inputFieldName with
    | Some inputValue =>
        match Type_ typeField, inputValue with
        | TSlice elem, _ :: _ =>
            let* slice := setElems (Kind_of elem) elem inputValue inputFieldName errors in
            Set_ structField (VSlice (Some slice))
        | _, val0 :: _ =>
            let* r := setWithProperType (Kind_of (Type_ typeField)) val0 structField
                        inputFieldName errors in
            Return (fst r)
        | _, [] => Panic "index out of range [0] with length 0"
        end
    | None =>
        match formfile !! inputFieldName with
        | None => Return data
        | Some inputFile =>
            match Type_ typeField, inputFile with
            | TSlice elem, _ :: _ =>
                if type_eqb elem fhType then Set_ structField (VSlice (Some inputFile))
                else Return data
            | t, _ =>
                if type_eqb t fhType then
                  match inputFile with
                  | file0 :: _ => Set_ structField file0
                  | [] => Panic "index out of range [0] with length 0"
                  end
                else Return data
            end
        end
    end.

(** [mapForm(formStruct, form, formfile, errors)]: [formStruct] is the
    [reflect.Value] with flags [fl], type [typ] and contents [data]; the
    result is its contents afterwards.  [errors] is a by-value parameter and
    [mapForm] has no result: nothing of it is handed back. *)
Fixpoint mapForm (fl : flag) (typ : type) (data : value)
    (form : gmap string (list string)) (formfile : gmap string (list value))
    (errors : Errors) {struct typ} : Res value :=
  let fields :=
    fix fields (fl : flag) (fs : list (StructField type)) (vs : list value)
        {struct fs} : Res (list value) :=
      match fs, vs with
      | [], _ => Return vs
      | typeField :: fs', structField :: vs' =>
          let ffl := Field_flag fl typeField in
          let tagged :=
            if negb (String.eqb (Tag_Get (Tag typeField) "form") "")
            then mapTagged ffl typeField structField form formfile errors
            else Return structField in
          let* d :=
            match Type_ typeField with
            | TPtr elem =>
                if Anonymous typeField then
                  let* _ := Set_ (mkValue ffl (TPtr elem) structField) (VPtr (Some (Zero elem))) in
                  let* e := mapForm (Elem_flag ffl) elem (Zero elem) form formfile errors in
                  if DeepEqual e (Zero elem)
                  then Set_ (mkValue ffl (TPtr elem) (VPtr (Some e))) (Zero (TPtr elem))
                  else Return (VPtr (Some e))
                else tagged
            | TStruct _ _ => mapForm ffl (Type_ typeField) structField form formfile errors
            | _ => tagged
            end in
          let* rest := fields fl fs' vs' in
          Return (d :: rest)
      | _ :: _, [] => Panic "reflect: Field index out of range"
      end in
  match typ, data with
  | TPtr elem, VPtr p =>                          (* reflect.Indirect *)
      match elem, p with
      | TStruct _ fs, Some (VStruct vs) =>
          let* vs' := fields (Elem_flag fl) fs vs in Return (VPtr (Some (VStruct vs')))
      | _, None => Panic "reflect: call of reflect.Value.Type on zero Value"
      | _, _ => Panic "reflect: NumField of non-struct type"
      end
  | TStruct _ fs, VStruct vs =>
      let* vs' := fields fl fs vs in Return (VStruct vs')
  | _, _ => Panic "reflect: NumField of non-struct type"
  end.

(** ** validateStruct *)

Definition alphaDashPattern := "[^\d\w-_]".
Definition alphaDashDotPattern := "[^\d\w-_\.]".
Definition emailPattern :=
  "[\w!#$%&'*+/=?^_`{|}~-]+(?:\.[\w!#$%&'*+/=?^_`{|}~-]+)*@(?:[\w](?:[\w-]*[\w])?\.)+[a-zA-Z0-9](?:[\w-]*[\w])?".
Definition urlPattern :=
  "(http|https):\/\/[\w\-_]+(\.[\w\-_]+)+([\w\-\.,@?^=%&amp;:/~\+#]*[\w\-\@?^=%&amp;/~\+#])?".

(** [v.Len()] of a slice *)
Definition Len (s : option (list value)) : Z :=
  match s with
  | None => 0
  | Some xs => Z.of_nat (length xs)
  end.

(** [rule[8 : len(rule)-1]] *)
Definition rule_argument (rule : string) : Res string :=
  if (String.length rule <? 9)%nat then Panic "slice bounds out of range"
  else Return (String.substring 8 (String.length rule - 9) rule).

(** One turn of the loop over the rules of a field (lines 212-269). *)
Definition matchRule (errors : Errors) (field : StructField type) (fieldValue zero : value)
    (rule : string) : Res Errors :=
  if (String.length rule =? 0)%nat then Return errors
  else if String.eqb rule "Required" then
    if DeepEqual zero fieldValue
    then Return (Add errors [Name field] RequiredError "Required")
    else Return errors
  else if String.eqb rule "AlphaDash" then
    if MatchString alphaDashPattern (Sprintf_v (Type_ field) fieldValue)
    then Return (Add errors [Name field] AlphaDashError "AlphaDash")
    else Return errors
  else if String.eqb rule "AlphaDashDot" then
    if MatchString alphaDashDotPattern (Sprintf_v (Type_ field) fieldValue)
    then Return (Add errors [Name field] AlphaDashDotError "AlphaDashDot")
    else Return errors
  else if strings.HasPrefix rule "MinSize(" then
    let* arg := rule_argument rule in
    let min := fst (strconv.Atoi arg) in
    if match fieldValue with VString str => RuneCountInString str <? min | _ => false end
    then Return (Add errors [Name field] MinSizeError "MinSize")
    else if match fieldValue with VSlice s => Len s <? min | _ => false end
    then Return (Add errors [Name field] MinSizeError "MinSize")
    else Return errors
  else if strings.HasPrefix rule "MaxSize(" then
    let* arg := rule_argument rule in
    let max := fst (strconv.Atoi arg) in
    if match fieldValue with VString str => max <? RuneCountInString str | _ => false end
    then Return (Add errors [Name field] MaxSizeError "MaxSize")
    else if match fieldValue with VSlice s => max <? Len s | _ => false end
    then Return (Add errors [Name field] MaxSizeError "MaxSize")
    else Return errors
  else if String.eqb rule "Email" then
    if negb (MatchString emailPattern (Sprintf_v (Type_ field) fieldValue))
    then Return (Add errors [Name field] EmailError "Email")
    else Return errors
  else if String.eqb rule "Url" then
    let str := Sprintf_v (Type_ field) fieldValue in
    if (String.length str =? 0)%nat then Return errors
    else if negb (MatchString urlPattern str)
    then Return (Add errors [Name field] UrlError "Url")
    else Return errors
  else Return errors.

Fixpoint matchRules (errors : Errors) (field : StructField type) (fieldValue zero : value)
    (rules : list string) : Res Errors :=
  match rules with
  | [] => Return errors
  | rule :: rules' =>
      let* errors := matchRule errors field fieldValue zero rule in
      matchRules errors field fieldValue zero rules'
  end.

(** [validateStruct(errors, obj)] for an [obj] of dynamic type [typ] and
    contents [val]. *)
Fixpoint validateStruct (errors : Errors) (typ : type) (val : value) {struct typ} : Res Errors :=
  let fields :=
    fix fields (errors : Errors) (fs : list (StructField type)) (vs : list value)
        {struct fs} : Res Errors :=
      match fs, vs with
      | [], _ => Return errors
      | field :: fs', fieldValue :: vs' =>
          if String.eqb (Tag_Get (Tag field) "form") "-"
             || negb (CanInterface (Field_flag flag_value field))
          then fields errors fs' vs'
          else
            let zero := Zero (Type_ field) in
            let* errors :=
              match Type_ field with
              | TStruct _ _ => validateStruct errors (Type_ field) fieldValue
              | TPtr (TStruct _ _) =>
                  if negb (DeepEqual zero fieldValue)
                  then validateStruct errors (Type_ field) fieldValue
                  else Return errors
              | _ => Return errors
              end in
            let* errors :=
              matchRules errors field fieldValue zero
                (strings.Split (Tag_Get (Tag field) "binding") ";") in
            fields errors fs' vs'
      | _ :: _, [] => Panic "reflect: Field index out of range"
      end in
  match typ, val with
  | TPtr elem, VPtr p =>
      match elem, p with
      | TStruct _ fs, Some (VStruct vs) => fields errors fs vs
      | TStruct _ fs, _ =>
          (* [val] is the zero Value: [val.Field(i)] panics at the first field
             that the test of the ignore marker has not skipped before *)
          if forallb (fun field => String.eqb (Tag_Get (Tag field) "form") "-") fs
          then Return errors
          else Panic "reflect: call of reflect.Value.Field on zero Value"
      | _, _ => Panic "reflect: NumField of non-struct type"
      end
  | TStruct _ fs, VStruct vs => fields errors fs vs
  | _, _ => Panic "reflect: NumField of non-struct type"
  end.

(** ** validate *)

(** The body of the loop over a slice target (lines 409-415). *)
Fixpoint validateElems (bindErrors : Errors) (elem : type) (es : list value) (req : Request)
    : Res Errors :=
  match es with
  | [] => Return bindErrors
  | e :: es' =>
      let* bindErrors := validateStruct bindErrors elem e in
      let bindErrors :=
        match Validator_of elem with
        | Some ValidateBinder => ValidateBinder e req bindErrors
        | None => bindErrors
        end in
      validateElems bindErrors elem es' req
  end.

Definition validate (typ : type) (obj : value) (req : Request) : Res Errors :=
  let bindErrors : Errors := [] in
  let '(typ', v) :=
    match typ, obj with
    | TPtr elem, VPtr (Some d) => (Some elem, Some d)
    | TPtr elem, VPtr None => (None, None)
    | _, _ => (Some typ, Some obj)
    end in
  match typ', v with
  | Some (TSlice elem), Some (VSlice s) =>
      validateElems bindErrors elem (default [] s) req
  | _, _ =>
      let* bindErrors := validateStruct bindErrors typ obj in
      match Validator_of typ with
      | Some ValidateBinder => Return (ValidateBinder obj req bindErrors)
      | None => Return bindErrors
      end
  end.

(** ** The entry points *)

(** Lines 58-72 (the same in [Form], [MultipartForm] and [Json]): what the
    argument is once dereferenced.  An empty pointer to a pointer is
    allocated on the way. *)
Inductive Target : Type :=
| NotByReference
| NotStructure (formStruct : value)
| Structure (typ : type) (data : value) (rebuild : value -> value).

Definition deref_target (typ : type) (formStruct : value) : Target :=
  match typ, formStruct with
  | TPtr (TPtr t2), VPtr (Some (VPtr p2)) =>
      let d2 := match p2 with None => Zero t2 | Some d2 => d2 end in
      let rebuild := fun x => VPtr (Some (VPtr (Some x))) in
      match t2 with
      | TStruct _ _ => Structure t2 d2 rebuild
      | _ => NotStructure (rebuild d2)
      end
  | TPtr (TStruct n fs), VPtr (Some d) => Structure (TStruct n fs) d (fun x => VPtr (Some x))
  | TPtr _, _ => NotStructure formStruct
  | _, _ => NotByReference
  end.

(** The entry points return the contents of the argument afterwards (what
    the caller sees through its pointer) and the [Errors]. *)
Definition Form (typ : type) (formStruct : value) (req : Request) : Res (value * Errors) :=
  let bindErrors : Errors := [] in
  match deref_target typ formStruct with
  | NotByReference => Return (formStruct, bindErrors ++ [ErrorInputNotByReference])
  | NotStructure formStruct' => Return (formStruct', bindErrors ++ [ErrorInputIsNotStructure])
  | Structure t d rebuild =>
      let bindErrors :=
        match snd (ParseForm req) with
        | Some parseErr => Add bindErrors [] DeserializationError (Error_ parseErr)
        | None => bindErrors
        end in
      let* d' := mapForm flag_settable t d (fst (ParseForm req)) ∅ bindErrors in
      let* validateErrs := validate t d' req in
      Return (rebuild d', bindErrors ++ validateErrs)
  end.

Definition MultipartForm (typ : type) (formStruct : value) (req : Request)
    : Res (value * Errors) :=
  let bindErrors : Errors := [] in
  match deref_target typ formStruct with
  | NotByReference => Return (formStruct, bindErrors ++ [ErrorInputNotByReference])
  | NotStructure formStruct' => Return (formStruct', bindErrors ++ [ErrorInputIsNotStructure])
  | Structure t d rebuild =>
      let '(bindErrors, req) :=
        match req_MultipartForm req with
        | Some _ => (bindErrors, req)
        | None =>
            match MultipartReader req with
            | inr err => (Add bindErrors [] DeserializationError (Error_ err), req)
            | inl ReadForm =>
                let '(form, parseErr) := ReadForm MaxMemory in
                (match parseErr with
                 | Some parseErr => Add bindErrors [] DeserializationError (Error_ parseErr)
                 | None => bindErrors
                 end,
                 set_MultipartForm req form)
            end
        end in
      match req_MultipartForm req with
      | None => Panic "invalid memory address or nil pointer dereference"
      | Some mf =>
          let* d' := mapForm flag_settable t d (Value_ mf) (File mf) bindErrors in
          let* validateErrs := validate t d' req in
          Return (rebuild d', bindErrors ++ validateErrs)
      end
  end.

Definition Json (typ : type) (jsonStruct : value) (req : Request) : Res (value * Errors) :=
  let bindErrors : Errors := [] in
  match deref_target typ jsonStruct with
  | NotByReference => Return (jsonStruct, bindErrors ++ [ErrorInputNotByReference])
  | NotStructure jsonStruct' => Return (jsonStruct', bindErrors ++ [ErrorInputIsNotStructure])
  | Structure t d rebuild =>
      let '(jsonStruct, bindErrors) :=
        match Body req with
        | Some body =>
            let '(decoded, err) := json_Decode body typ (rebuild d) in
            (decoded,
             match err with
             | Some io_EOF | None => bindErrors
             | Some err => Add bindErrors [] DeserializationError (Error_ err)
             end)
        | None => (rebuild d, bindErrors)
        end in
      let* validateErrs := validate typ jsonStruct req in
      Return (jsonStruct, bindErrors ++ validateErrs)
  end.

(** ** Bind *)

Definition Bind (typ : type) (obj : value) (req : Request) : Res (value * Errors) :=
  let contentType := Content_Type req in
  if String.eqb (Method req) "POST" || String.eqb (Method req) "PUT"
     || negb (String.eqb contentType "") then
    if strings.Contains contentType "form-urlencoded" then Form typ obj req
    else if strings.Contains contentType "multipart/form-data" then MultipartForm typ obj req
    else if strings.Contains contentType "json" then Json typ obj req
    else
      let errors : Errors := [] in
      let errors :=
        if String.eqb contentType "" then AddError errors ErrorEmptyContentType
        else AddError errors ErrorUnsupportedContentType in
      Return (obj, errors)
  else Form typ obj req.

(** ** The loops of the two walkers, field by field

    [mapForm] and [validateStruct] carry their loops inside; the loop bodies
    are named here, and shown below to be what the walkers run. *)

(** The body of [mapForm]'s loop for the field [typeField] holding
    [structField], in a struct whose [reflect.Value] has flags [fl]. *)
Definition mapField (fl : flag) (typeField : StructField type) (structField : value)
    (form : gmap string (list string)) (formfile : gmap string (list value))
    (errors : Errors) : Res value :=
  let ffl := Field_flag fl typeField in
  let tagged :=
    if negb (String.eqb (Tag_Get (Tag typeField) "form") "")
    then mapTagged ffl typeField structField form formfile errors
    else Return structField in
  match Type_ typeField with
  | TPtr elem =>
      if Anonymous typeField then
        let* _ := Set_ (mkValue ffl (TPtr elem) structField) (VPtr (Some (Zero elem))) in
        let* e := mapForm (Elem_flag ffl) elem (Zero elem) form formfile errors in
        if DeepEqual e (Zero elem)
        then Set_ (mkValue ffl (TPtr elem) (VPtr (Some e))) (Zero (TPtr elem))
        else Return (VPtr (Some e))
      else tagged
  | TStruct _ _ => mapForm ffl (Type_ typeField) structField form formfile errors
  | _ => tagged
  end.

Fixpoint mapFields (fl : flag) (fs : list (StructField type)) (vs : list value)
    (form : gmap string (list string)) (formfile : gmap string (list value))
    (errors : Errors) : Res (list value) :=
  match fs, vs with
  | [], _ => Return vs
  | typeField :: fs', structField :: vs' =>
      let* d := mapField fl typeField structField form formfile errors in
      let* rest := mapFields fl fs' vs' form formfile errors in
      Return (d :: rest)
  | _ :: _, [] => Panic "reflect: Field index out of range"
  end.

(** Whether [validateStruct] looks at a field at all (line 197). *)
Definition validated (field : StructField type) : bool :=
  negb (String.eqb (Tag_Get (Tag field) "form") "-"
        || negb (CanInterface (Field_flag flag_value field))).

(** Whether [validateStruct] descends into a field (lines 205-207). *)
Definition descends (field : StructField type) (fieldValue : value) : bool :=
  match Type_ field with
  | TStruct _ _ => true
  | TPtr (TStruct _ _) => negb (DeepEqual (Zero (Type_ field)) fieldValue)
  | _ => false
  end.

Definition rules_of (field : StructField type) : list string :=
  strings.Split (Tag_Get (Tag field) "binding") ";".

(** The body of [validateStruct]'s loop. *)
Definition validateField (errors : Errors) (field : StructField type) (fieldValue : value)
    : Res Errors :=
  if validated field then
    let* errors :=
      if descends field fieldValue then validateStruct errors (Type_ field) fieldValue
      else Return errors in
    matchRules errors field fieldValue (Zero (Type_ field)) (rules_of field)
  else Return errors.

Fixpoint validateFields (errors : Errors) (fs : list (StructField type)) (vs : list value)
    : Res Errors :=
  match fs, vs with
  | [], _ => Return errors
  | field :: fs', fieldValue :: vs' =>
      let* errors := validateField errors field fieldValue in
      validateFields errors fs' vs'
  | _ :: _, [] => Panic "reflect: Field index out of range"
  end.

End Binder.

(** ** Vocabulary of the statements *)

(** The field a path of field indices leads to, and its contents.  A path
    runs through nested records held by value only: it never crosses a
    pointer. *)
Fixpoint field_at (typ : type) (data : value) (path : list nat) {struct path}
    : option (StructField type * value) :=
  match path, typ, data with
  | i :: rest, TStruct _ fs, VStruct vs =>
      match fs !! i, vs !! i with
      | Some f, Some x =>
          match rest with
          | [] => Some (f, x)
          | _ :: _ => field_at (Type_ f) x rest
          end
      | _, _ => None
      end
  | _, _, _ => None
  end.

(** Neither an anonymous pointer nor a nested record: a field that
    [mapForm] binds by its key. *)
Definition keyed (f : StructField type) : bool :=
  match Type_ f with
  | TPtr _ => negb (Anonymous f)
  | TStruct _ _ => false
  | _ => true
  end.

(** Every field name declared anywhere in the shape of a type. *)
Fixpoint declared_names (t : type) : list string :=
  match t with
  | TPtr elem | TSlice elem => declared_names elem
  | TStruct _ fs =>
      (fix names (fs : list (StructField type)) : list string :=
         match fs with
         | [] => []
         | f :: fs' => Name f :: declared_names (Type_ f) ++ names fs'
         end) fs
  | _ => []
  end.

(** A size rule has its closing parenthesis: [rule[8 : len(rule)-1]] is in
    range. *)
Definition rule_ok (rule : string) : bool :=
  negb (String.eqb rule "MinSize(" || String.eqb rule "MaxSize(").

Fixpoint rules_ok (t : type) : bool :=
  match t with
  | TPtr elem | TSlice elem => rules_ok elem
  | TStruct _ fs =>
      (fix all (fs : list (StructField type)) : bool :=
         match fs with
         | [] => true
         | f :: fs' =>
             forallb rule_ok (strings.Split (Tag_Get (Tag f) "binding") ";")
             && rules_ok (Type_ f) && all fs'
         end) fs
  | _ => true
  end.



Definition has_class (class : string) (e : Error) : bool :=
  String.eqb (Classification e) class.

(** The typed coercion error that [setWithProperType] appends for a kind. *)
Definition coercion_error (valueKind : reflect.Kind) (nameInTag : string) : option Error :=
  match valueKind with
  | reflect.Int | reflect.Int8 | reflect.Int16 | reflect.Int32 | reflect.Int64 =>
      Some (NewError [nameInTag] IntegerTypeError "Value could not be parsed as integer")
  | reflect.Uint | reflect.Uint8 | reflect.Uint16 | reflect.Uint32 | reflect.Uint64 =>
      Some (NewError [nameInTag] IntegerTypeError "Value could not be parsed as unsigned integer")
  | reflect.Bool =>
      Some (NewError [nameInTag] BooleanTypeError "Value could not be parsed as boolean")
  | reflect.Float32 =>
      Some (NewError [nameInTag] FloatTypeError "Value could not be parsed as 32-bit float")
  | reflect.Float64 =>
      Some (NewError [nameInTag] FloatTypeError "Value could not be parsed as 64-bit float")
  | _ => None
  end.

(** What a call of [setWithProperType] on a settable field of type [t] can
    do: store a value that the literal alone determines, append the typed
    error of the kind, or nothing. *)
Definition stores `{GoLibs} (fl : flag) (t : type) (val nameInTag : string) (errors : Errors)
    (d' : value) : Prop :=
  has_type t d' = true /\
  forall d0, setWithProperType (Kind_of t) val (mkValue fl t d0) nameInTag errors
             = Return (d', errors).

(** [validateStruct] on [t] keeps the errors it is given and appends. *)
Definition appends `{GoLibs} (t : type) : Prop :=
  forall errors v,
    validateStruct errors t v = let* app := validateStruct [] t v in Return (errors ++ app).

(** Every field reachable in a value, through nested records, holds the
    zero value of its type: false, 0, a zero float, the empty string, a nil
    pointer or a nil slice. *)
Fixpoint at_zero (t : type) (v : value) {struct t} : bool :=
  match t, v with
  | TBool, VBool b => negb b
  | TInt _, VInt z | TUint _, VUint z => z =? 0
  | TFloat32, VFloat b | TFloat64, VFloat b => float_eq b 0
  | TString, VString s => String.eqb s ""
  | TPtr _, VPtr None => true
  | TSlice _, VSlice None => true
  | TStruct _ fs, VStruct vs =>
      (fix all (fs : list (StructField type)) (vs : list value) {struct fs} : bool :=
         match fs, vs with
         | [], [] => true
         | f :: fs', x :: vs' => at_zero (Type_ f) x && all fs' vs'
         | _, _ => false
         end) fs vs
  | _, _ => false
  end.

(** The handling of an anonymous embedded pointer as the specification words
    it: allocate only if the pointer is nil, recurse into the record it
    points to, reset to nil when that record is at its zero value. *)
Definition embedded_only_if_nil `{GoLibs} (fl : flag) (elem : type) (structField : value)
    (form : gmap string (list string)) (formfile : gmap string (list value))
    (errors : Errors) : Res value :=
  let pointee :=
    match structField with
    | VPtr (Some d) => d
    | _ => Zero elem
    end in
  let* e := mapForm (Elem_flag fl) elem pointee form formfile errors in
  Return (if DeepEqual e (Zero elem) then VPtr None else VPtr (Some e)).

(** The errors an entry point records before it validates: they name no
    field and are deserialization errors. *)
Definition binder_error (e : Error) : Prop :=
  FieldNames e = [] /\ Classification e = DeserializationError.

(** An error names one field, among the given names. *)
Definition named_in (names : list string) (e : Error) : Prop :=
  exists n, FieldNames e = [n] /\ In n names.

(** The names declared by a list of fields and, below them, by their
    types. *)
Definition fields_names (fs : list (StructField type)) : list string :=
  flat_map (fun f => Name f :: declared_names (Type_ f)) fs.

(** Where [validateStruct] is called on a well-typed value of a type: on a
    record, or on a non-nil pointer to a record. *)
Definition walkable (t : type) (v : value) : bool :=
  match t, v with
  | TStruct _ _, _ => true
  | TPtr (TStruct _ _), VPtr (Some _) => true
  | _, _ => false
  end.

(** [validateStruct] returns on the well-typed values of [t] it is called
    on, when the size rules are well formed. *)
Definition returns_on `{GoLibs} (t : type) : Prop :=
  forall errors v,
    has_type t v = true -> rules_ok t = true -> walkable t v = true ->
    exists out, validateStruct errors t v = Return out.

(** The kinds [setWithProperType] has a case for. *)
Definition supported (valueKind : reflect.Kind) : bool :=
  match valueKind with
  | reflect.Ptr | reflect.Slice | reflect.Struct => false
  | _ => true
  end.


(** ** Vocabulary of the further properties *)

(** Every file of the file-values map is a [*multipart.FileHeader]. *)
Definition files_ok (formfile : gmap string (list value)) : Prop :=
  forall key files, formfile !! key = Some files -> forallb (has_type fhType) files = true.

(** No key of a map holds an empty list of values (as for the maps that
    [ParseForm] and [ReadForm] build). *)
Definition lists_ok {A : Type} (m : gmap string (list A)) : Prop :=
  forall key l, m !! key = Some l -> l <> [].

(** Every anonymous pointer field met by [mapForm] on a record of type [t],
    held in a [reflect.Value] with flags [fl], can be set and points to a
    record. *)
Fixpoint bindable (t : type) (fl : flag) {struct t} : bool :=
  match t with
  | TStruct _ fs =>
      (fix all (fs : list (StructField type)) : bool :=
         match fs with
         | [] => true
         | f :: fs' =>
             match Type_ f with
             | TPtr elem =>
                 if Anonymous f then
                   CanSet (Field_flag fl f)
                   && match elem with TStruct _ _ => true | _ => false end
                   && bindable elem (Elem_flag (Field_flag fl f))
                 else true
             | TStruct _ _ => bindable (Type_ f) (Field_flag fl f)
             | _ => true
             end && all fs'
         end) fs
  | _ => true
  end.

(** The classifications of the built-in rules. *)
Definition rule_classes : list string :=
  [RequiredError; AlphaDashError; AlphaDashDotError; MinSizeError; MaxSizeError;
   EmailError; UrlError].


(** [mapForm] leaves well-typed values of [t] well typed. *)
Definition keeps_type `{GoLibs} (t : type) : Prop :=
  forall fl data form formfile errors data',
    files_ok formfile -> has_type t data = true ->
    mapForm fl t data form formfile errors = Return data' ->
    has_type t data' = true.


(** [mapForm] returns on the well-typed records of type [t], when the
    anonymous pointers can be set and no key holds an empty list. *)
Definition binds `{GoLibs} (t : type) : Prop :=
  forall fl data form formfile errors,
    has_type t data = true -> bindable t fl = true ->
    lists_ok form -> lists_ok formfile ->
    (exists name fs, t = TStruct name fs) ->
    exists data', mapForm fl t data form formfile errors = Return data'.

(** What [mapForm] with an empty request leaves of the zero value of [t]
    is the zero value. *)
Definition stays_zero `{GoLibs} (t : type) : Prop :=
  forall fl errors data',
    mapForm fl t (Zero t) ∅ ∅ errors = Return data' -> data' = Zero t.

(** The same field declaration, exported. *)
Definition as_exported (f : StructField type) : StructField type :=
  mkField (Name f) "" (Type_ f) (Tag f) (Anonymous f).

(** What a call leaves in the record, without the errors. *)
Definition bound {A B : Type} (m : Res (A * B)) : Res A :=
  let* r := m in Return (fst r).

(** [mapForm] on [t] does not look at the errors it is given. *)
Definition ignores_errors `{GoLibs} (t : type) : Prop :=
  forall fl data form formfile errors errors',
    mapForm fl t data form formfile errors = mapForm fl t data form formfile errors'.

(** ** The types of common_test.go *)

Module Examples.

Definition Post : type :=
  TStruct "Post"
    [ mkField "Title" "" TString [("form", "title"); ("json", "title"); ("binding", "Required")] false;
      mkField "Content" "" TString [("form", "content"); ("json", "content")] false ].

Definition Person : type :=
  TStruct "Person"
    [ mkField "Name" "" TString [("form", "name"); ("json", "name"); ("binding", "Required")] false;
      mkField "Email" "" TString [("form", "email"); ("json", "email")] false ].

Definition BlogPost : type :=
  TStruct "BlogPost"
    [ mkField "Post" "" Post [] true;
      mkField "Id" "" (TInt W) [("form", "id"); ("binding", "Required")] false;
      mkField "Ignored" "" TString [("form", "-"); ("json", "-")] false;
      mkField "Ratings" "" (TSlice (TInt W)) [("form", "rating"); ("json", "ratings")] false;
      mkField "Author" "" Person [("json", "author")] false;
      mkField "Coauthor" "" (TPtr Person) [("json", "coauthor")] false;
      mkField "HeaderImage" "" fhType [("form", "headerImage")] false;
      mkField "Pictures" "" (TSlice fhType) [("form", "picture")] false;
      mkField "unexported" "binder" TString [("form", "unexported")] false ].

Definition EmbedPerson : type :=
  TStruct "EmbedPerson" [ mkField "Person" "" (TPtr Person) [] true ].

(** [func (p Post) ValidateBinder(req, errors) Errors] *)
Definition Post_ValidateBinder (p : value) (req : Request) (errors : Errors) : Errors :=
  match p with
  | VStruct (VString Title :: _) =>
      if (String.length Title <? 10)%nat
      then errors ++ [NewError ["Title"] "LengthError" "Life is too short"]
      else errors
  | _ => errors
  end.

(** The method sets: [Post] has the method, and so have [*Post] and, by
    promotion of the embedded field, [BlogPost] and [*BlogPost]. *)
Definition receiver (t : type) (obj : value) : value :=
  let obj := match obj with VPtr (Some d) => d | _ => obj end in
  if type_eqb t BlogPost || type_eqb t (TPtr BlogPost)
  then match obj with VStruct (post :: _) => post | _ => obj end
  else obj.

#[export] Instance methods : MethodSets := {|
  Validator_of t :=
    if type_eqb t Post || type_eqb t (TPtr Post)
       || type_eqb t BlogPost || type_eqb t (TPtr BlogPost)
    then Some (fun obj => Post_ValidateBinder (receiver t obj))
    else None
|}.

(** Library results for running closed examples.  The targets of the
    examples have no float field and no pattern rule, so that only
    [RuneCountInString] and [Sprintf_v] on ASCII strings matter. *)
#[export] Instance libs : GoLibs := {|
  ParseFloat _ _ := (0, Some strconv.ErrSyntax);
  float32 x := x;
  MatchString _ _ := false;
  Sprintf_v _ v := match v with VString s => s | _ => "" end;
  RuneCountInString s := Z.of_nat (String.length s);
  json_Decode _ _ v := (v, None)
|}.

(** A request whose [ParseForm] yields [form]. *)
Definition form_request (method contentType : string) (form : gmap string (list string))
    : Request :=
  {| Method := method; Content_Type := contentType; ParseForm := (form, None);
     req_MultipartForm := None;
     MultipartReader := inr (errorString "request Content-Type isn't multipart/form-data");
     Body := None |}.

Definition formContentType := "application/x-www-form-urlencoded".

(** [struct { Ratings []int `form:"rating"` }] *)
Definition Rated : type :=
  TStruct "Rated" [ mkField "Ratings" "" (TSlice (TInt W)) [("form", "rating")] false ].

(** [struct { Ignored string `form:"-"` }] *)
Definition Hidden : type :=
  TStruct "Hidden" [ mkField "Ignored" "" TString [("form", "-")] false ].

(** [struct { Author Person `binding:"Required"` }] *)
Definition Signed : type :=
  TStruct "Signed" [ mkField "Author" "" Person [("binding", "Required")] false ].



(** [struct { Subscribed bool `form:"subscribed"` }] *)
Definition Newsletter : type :=
  TStruct "Newsletter" [ mkField "Subscribed" "" TBool [("form", "subscribed")] false ].

(** Requests and targets of the worked cases. *)
Definition ratings_form : gmap string (list string) :=
  {[ "rating" := ["1"; "2"; "notanumber"] ]}.

Definition dash_form : gmap string (list string) := {[ "-" := ["sneaky"] ]}.

Definition bob_form : gmap string (list string) := {[ "name" := ["Bob"] ]}.

Definition al : value := VStruct [VString "Al"; VString "al@example.org"].

Definition Name_field : StructField type :=
  mkField "Name" "" TString [("form", "name"); ("json", "name"); ("binding", "Required")] false.

Definition Email_field : StructField type :=
  mkField "Email" "" TString [("form", "email"); ("json", "email")] false.

Definition Person_field : StructField type := mkField "Person" "" (TPtr Person) [] true.


Definition Author_field : StructField type :=
  mkField "Author" "" Person [("binding", "Required")] false.


(** [struct { secret string `form:"secret"` }] *)
Definition secret_field : StructField type :=
  mkField "secret" "binder" TString [("form", "secret")] false.

Definition Private : type := TStruct "Private" [secret_field].

(** [struct { Name string `binding:"MinSize("` }] *)
Definition short_field : StructField type :=
  mkField "Name" "" TString [("binding", "MinSize(")] false.

Definition Broken : type := TStruct "Broken" [short_field].

(** Fields of [BlogPost], and an embedded [post] of an unexported type with
    the fields of [Post]. *)
Definition Id_field : StructField type :=
  mkField "Id" "" (TInt W) [("form", "id"); ("binding", "Required")] false.

Definition HeaderImage_field : StructField type :=
  mkField "HeaderImage" "" fhType [("form", "headerImage")] false.

Definition Pictures_field : StructField type :=
  mkField "Pictures" "" (TSlice fhType) [("form", "picture")] false.

Definition post_field : StructField type := mkField "post" "binder" Post [] true.

(** [struct { Name string; HeaderImage *multipart.FileHeader; Pictures
    []*multipart.FileHeader }], tagged as in [Person] and [BlogPost]. *)
Definition Upload : type := TStruct "Upload" [Name_field; HeaderImage_field; Pictures_field].

(** An uploaded file, and the maps of a multipart request that carries it. *)
Definition photo : value :=
  VPtr (Some (VStruct [VString "cat.png"; VInt 3;
                       VSlice (Some [VUint 1; VUint 2; VUint 3]); VString ""])).

Definition photos : gmap string (list value) := {[ "headerImage" := [photo; photo] ]}.


Definition upload : multipart_Form := {| Value_ := bob_form; File := photos |}.

Definition multipart_request (form : multipart_Form) : Request :=
  {| Method := "POST"; Content_Type := "multipart/form-data; boundary=x";
     ParseForm := (∅, None);
     req_MultipartForm := Some form;
     MultipartReader := inr (errorString "http: multipart handled by ParseMultipartForm");
     Body := None |}.


Definition secret_form : gmap string (list string) := {[ "secret" := ["sneaky"] ]}.

Definition id_form : gmap string (list string) := {[ "id" := ["0"] ]}.

Definition title_form : gmap string (list string) := {[ "title" := ["Hello"] ]}.

(** A GET request whose query holds name=Bob and a pair that [ParseForm]
    rejects. *)
Definition failing_request : Request :=
  {| Method := "GET"; Content_Type := "";
     ParseForm := (bob_form, Some (errorString "invalid semicolon separator in query"));
     req_MultipartForm := None;
     MultipartReader := inr (errorString "request Content-Type isn't multipart/form-data");
     Body := None |}.

(** A POST request with a JSON body. *)
Definition json_request (body : string) : Request :=
  {| Method := "POST"; Content_Type := "application/json"; ParseForm := (∅, None);
     req_MultipartForm := None;
     MultipartReader := inr (errorString "request Content-Type isn't multipart/form-data");
     Body := Some body |}.

End Examples.

(** * Properties *)

(** ** Outcomes *)

Lemma bind_Return {A B : Type} (m : Res A) (k : A -> Res B) (b : B) :
  bind m k = Return b -> exists a, m = Return a /\ k a = Return b.
Proof. destruct m as [a|msg]; simpl; [eauto | discriminate]. Qed.

Lemma bind_Return_l {A B : Type} (a : A) (k : A -> Res B) : bind (Return a) k = k a.
Proof. reflexivity. Qed.

Lemma bind_assoc {A B C : Type} (m : Res A) (k : A -> Res B) (k' : B -> Res C) :
  bind (bind m k) k' = bind m (fun a => bind (k a) k').
Proof. destruct m; reflexivity. Qed.

Lemma bind_ext {A B : Type} (m : Res A) (k k' : A -> Res B) :
  (forall a, k a = k' a) -> bind m k = bind m k'.
Proof. intros Hk. destruct m; simpl; [apply Hk | reflexivity]. Qed.

Ltac inv_bind H :=
  let a := fresh "a" in
  let Ha := fresh "Ha" in
  apply bind_Return in H; destruct H as (a & Ha & H).

(** ** Induction over the shape of a type *)

Section TypeInduction.

Variable P : type -> Prop.
Hypothesis HBool : P TBool.
Hypothesis HInt : forall w, P (TInt w).
Hypothesis HUint : forall w, P (TUint w).
Hypothesis HFloat32 : P TFloat32.
Hypothesis HFloat64 : P TFloat64.
Hypothesis HString : P TString.
Hypothesis HPtr : forall elem, P elem -> P (TPtr elem).
Hypothesis HSlice : forall elem, P elem -> P (TSlice elem).
Hypothesis HStruct :
  forall name fs, Forall (fun f => P (Type_ f)) fs -> P (TStruct name fs).

Fixpoint type_shape_ind (t : type) : P t :=
  match t with
  | TBool => HBool
  | TInt w => HInt w
  | TUint w => HUint w
  | TFloat32 => HFloat32
  | TFloat64 => HFloat64
  | TString => HString
  | TPtr elem => HPtr elem (type_shape_ind elem)
  | TSlice elem => HSlice elem (type_shape_ind elem)
  | TStruct name fs =>
      HStruct name fs
        ((fix all (fs : list (StructField type)) : Forall (fun f => P (Type_ f)) fs :=
            match fs with
            | [] => List.Forall_nil _
            | f :: fs' => List.Forall_cons _ f fs' (type_shape_ind (Type_ f)) (all fs')
            end) fs)
  end.

End TypeInduction.

(** ** Slices passed by value *)

Lemma slice_view_length st s : slice.valid st s -> length (slice.view st s) = slice.len s.
Proof.
  intros [Hle [Hz | (arr & Harr & Hlen)]]; unfold slice.view.
  - assert (slice.len s = 0%nat) as -> by lia. reflexivity.
  - rewrite Harr. simpl. rewrite length_take. lia.
Qed.

(** The header that [append] yields shows the old elements and the new
    one. *)
Lemma slice_append_view st s e :
  slice.valid st s ->
  slice.view (slice.append st s e).1 (slice.append st s e).2 = slice.view st s ++ [e].
Proof.
  intros Hv. pose proof (slice_view_length st s Hv) as Hlen.
  unfold slice.append. destruct (slice.len s <? slice.cap s)%nat eqn:Hroom.
  - apply Nat.ltb_lt in Hroom.
    destruct Hv as [_ [Hz | (arr & Harr & Hcap)]]; [lia|].
    unfold slice.view. simpl. rewrite lookup_alter_eq, Harr. simpl.
    rewrite (take_S_r _ _ e) by (apply list_lookup_insert_eq; lia).
    rewrite take_insert_ge by lia. reflexivity.
  - unfold slice.view at 1. simpl. rewrite lookup_insert_eq. simpl.
    rewrite (cons_middle e), app_assoc.
    apply take_app_length'. rewrite length_app, Hlen. simpl. lia.
Qed.

(** Every header that does not reach behind the length of the one appended
    to shows what it showed. *)
Lemma slice_append_elsewhere st s e s' :
  slice.valid st s' ->
  (slice.array s' = slice.array s -> (slice.len s' <= slice.len s)%nat) ->
  slice.view (slice.append st s e).1 s' = slice.view st s' /\
  slice.valid (slice.append st s e).1 s'.
Proof.
  intros Hv' Hshare. unfold slice.append.
  destruct (slice.len s <? slice.cap s)%nat eqn:Hroom; simpl; unfold slice.view, slice.valid.
  - destruct (decide (slice.array s' = slice.array s)) as [Heq|Hne].
    + rewrite Heq, lookup_alter_eq. destruct Hv' as [Hle Harr]. rewrite Heq in Harr.
      destruct (st !! slice.array s) as [arr|]; simpl.
      * split; [apply take_insert_ge; auto|]. split; [exact Hle|].
        destruct Harr as [Hz | (arr' & Harr' & Hcap)]; [auto|].
        injection Harr' as <-.
        right. exists (<[slice.len s := e]> arr). rewrite length_insert. auto.
      * split; [reflexivity|]. split; [exact Hle|].
        destruct Harr as [Hz | (arr' & Harr' & Hcap)]; [auto | discriminate].
    + rewrite !lookup_alter_ne by congruence. split; [reflexivity | exact Hv'].
  - destruct Hv' as [Hle [Hz | (arr & Harr & Hcap)]].
    + assert (slice.len s' = 0%nat) as -> by lia.
      split; [reflexivity|]. split; [lia | auto].
    + assert (Hne : fresh (dom st) <> slice.array s').
      { intros Heq. pose proof (is_fresh (dom st)) as Hfresh.
        rewrite Heq in Hfresh. apply not_elem_of_dom in Hfresh. congruence. }
      rewrite !lookup_insert_ne by exact Hne.
      split; [reflexivity|]. split; [exact Hle|]. right. eauto.
Qed.

(** The caller of a function that takes the slice by value and appends to
    its copy sees what it saw, after any number of such calls. *)
Lemma slice_append_by_value st s es :
  slice.valid st s -> slice.view (slice.callees st s es) s = slice.view st s.
Proof.
  revert st. induction es as [|e es IH]; intros st Hv; [reflexivity|].
  simpl. destruct (slice_append_elsewhere st s e s Hv ltac:(auto)) as [Hview Hvalid].
  rewrite IH by exact Hvalid. exact Hview.
Qed.

Section Facts.

Context `{GoLibs} `{MethodSets}.

(** ** The walkers run the named loops *)

Lemma mapForm_struct fl name fs vs form formfile errors :
  mapForm fl (TStruct name fs) (VStruct vs) form formfile errors =
  let* vs' := mapFields fl fs vs form formfile errors in Return (VStruct vs').
Proof.
  simpl. f_equal. revert vs.
  induction fs as [|f fs IH]; intros [|x vs]; simpl; try reflexivity.
  rewrite IH. reflexivity.
Qed.

Lemma validateStruct_struct errors name fs vs :
  validateStruct errors (TStruct name fs) (VStruct vs) = validateFields errors fs vs.
Proof.
  simpl. revert errors vs.
  induction fs as [|f fs IH]; intros errors [|x vs]; simpl; try reflexivity.
  unfold validateField, validated, rules_of.
  destruct (String.eqb (Tag_Get (Tag f) "form") "-" || negb (CanInterface (Field_flag flag_value f)));
    simpl; [apply IH|].
  rewrite bind_assoc.
  match goal with
  | |- bind ?m _ = _ =>
      replace m with (if descends f x then validateStruct errors (Type_ f) x else Return errors)
  end.
  - apply bind_ext; intros e1. apply bind_ext; intros e2. apply IH.
  - unfold descends. destruct (Type_ f) as [| | | | | |elem|elem|n' fs']; try reflexivity.
    destruct elem; try reflexivity.
Qed.

(** ** The coercer *)

Lemma mustBeAssignable_CanSet fl : CanSet fl = true -> mustBeAssignable fl = Return tt.
Proof.
  unfold CanSet, mustBeAssignable. destruct (flagRO fl), (flagAddr fl); simpl; congruence.
Qed.

Lemma wrap_signed_range n x :
  0 < n -> - 2 ^ (n - 1) <= wrap_signed n x < 2 ^ (n - 1).
Proof.
  intros Hn. unfold wrap_signed.
  assert (Hp : 2 ^ n = 2 * 2 ^ (n - 1)).
  { rewrite <- Z.pow_succ_r by lia. f_equal. lia. }
  assert (Hpos : 0 < 2 ^ (n - 1)) by (apply Z.pow_pos_nonneg; lia).
  pose proof (Z.mod_pos_bound (x + 2 ^ (n - 1)) (2 ^ n) ltac:(lia)). lia.
Qed.

Lemma wrap_unsigned_range n x : 0 < n -> 0 <= wrap_unsigned n x < 2 ^ n.
Proof.
  intros Hn. unfold wrap_unsigned. apply Z.mod_pos_bound. apply Z.pow_pos_nonneg; lia.
Qed.

Lemma bits_pos w : 0 < bits w.
Proof. destruct w; simpl; lia. Qed.

Lemma has_type_wrap_signed w x : has_type (TInt w) (VInt (wrap_signed (bits w) x)) = true.
Proof.
  simpl. pose proof (wrap_signed_range (bits w) x (bits_pos w)).
  apply andb_true_intro; split; [apply Z.leb_le | apply Z.ltb_lt]; lia.
Qed.

Lemma has_type_wrap_unsigned w x : has_type (TUint w) (VUint (wrap_unsigned (bits w) x)) = true.
Proof.
  simpl. pose proof (wrap_unsigned_range (bits w) x (bits_pos w)).
  apply andb_true_intro; split; [apply Z.leb_le | apply Z.ltb_lt]; lia.
Qed.

Lemma setWithProperType_cases fl t d val nameInTag errors :
  CanSet fl = true ->
  exists d' errors',
    setWithProperType (Kind_of t) val (mkValue fl t d) nameInTag errors = Return (d', errors') /\
    ((errors' = errors /\ stores fl t val nameInTag errors d')
     \/ (d' = d /\ exists e, coercion_error (Kind_of t) nameInTag = Some e /\ errors' = errors ++ [e])
     \/ (d' = d /\ errors' = errors /\
         (supported (Kind_of t) = false
          \/ (t = TBool /\ val <> "on" /\
              strconv.ParseBool (if String.eqb val "" then "false" else val) = Some false)))).
Proof.
  intros Hset. pose proof (mustBeAssignable_CanSet fl Hset) as Hm.
  destruct t as [|w|w| | | |elem|elem|n fs].
  - (* bool *)
    unfold setWithProperType; simpl Kind_of; cbv iota.
    destruct (String.eqb val "on") eqn:Hon.
    + exists (VBool true), errors. unfold SetBool; simpl. rewrite Hm; simpl.
      split; [reflexivity|]. left. split; [reflexivity|]. split; [reflexivity|].
      intros d0. unfold setWithProperType. rewrite Hon. unfold SetBool; simpl. rewrite Hm. reflexivity.
    + destruct (strconv.ParseBool (if String.eqb val "" then "false" else val)) as [[|]|] eqn:Hp.
      * exists (VBool true), errors. unfold SetBool; simpl. rewrite Hm; simpl.
        split; [reflexivity|]. left. split; [reflexivity|]. split; [reflexivity|].
        intros d0. unfold setWithProperType. rewrite Hon, Hp. unfold SetBool; simpl. rewrite Hm.
        reflexivity.
      * exists d, errors. split; [reflexivity|]. right; right. repeat split; trivial.
        right. repeat split; trivial. intros ->. discriminate.
      * eexists d, _. split; [reflexivity|]. right; left. split; [reflexivity|].
        eexists. split; reflexivity.
  - (* signed integers *)
    assert (Hk : forall X (a b : X),
      match Kind_of (TInt w) with
      | reflect.Int | reflect.Int8 | reflect.Int16 | reflect.Int32 | reflect.Int64 => a
      | _ => b
      end = a) by (intros; destruct w; reflexivity).
    assert (Hrun : forall d0,
      setWithProperType (Kind_of (TInt w)) val (mkValue fl (TInt w) d0) nameInTag errors =
      match strconv.ParseInt (if String.eqb val "" then "0" else val) with
      | (_, Some _) =>
          Return (d0, Add errors [nameInTag] IntegerTypeError "Value could not be parsed as integer")
      | (intVal, None) => Return (VInt (wrap_signed (bits w) intVal), errors)
      end).
    { intros d0. unfold setWithProperType, SetInt; simpl v_flag; simpl v_type; simpl v_data.
      rewrite Hm. destruct w; simpl Kind_of; cbv iota;
        destruct (strconv.ParseInt _) as [z [e|]]; reflexivity. }
    rewrite Hrun. destruct (strconv.ParseInt _) as [z [e|]] eqn:Hp.
    + eexists d, _. split; [reflexivity|]. right; left. split; [reflexivity|].
      eexists. split; [|reflexivity]. destruct w; reflexivity.
    + eexists _, errors. split; [reflexivity|]. left. split; [reflexivity|].
      split; [apply has_type_wrap_signed|]. intros d0. rewrite Hrun. rewrite ?Hp. reflexivity.
  - (* unsigned integers *)
    assert (Hrun : forall d0,
      setWithProperType (Kind_of (TUint w)) val (mkValue fl (TUint w) d0) nameInTag errors =
      match strconv.ParseUint (if String.eqb val "" then "0" else val) with
      | (_, Some _) =>
          Return (d0, Add errors [nameInTag] IntegerTypeError
                        "Value could not be parsed as unsigned integer")
      | (uintVal, None) => Return (VUint (wrap_unsigned (bits w) uintVal), errors)
      end).
    { intros d0. unfold setWithProperType, SetUint; simpl v_flag; simpl v_type; simpl v_data.
      rewrite Hm. destruct w; simpl Kind_of; cbv iota;
        destruct (strconv.ParseUint _) as [z [e|]]; reflexivity. }
    rewrite Hrun. destruct (strconv.ParseUint _) as [z [e|]] eqn:Hp.
    + eexists d, _. split; [reflexivity|]. right; left. split; [reflexivity|].
      eexists. split; [|reflexivity]. destruct w; reflexivity.
    + eexists _, errors. split; [reflexivity|]. left. split; [reflexivity|].
      split; [apply has_type_wrap_unsigned|]. intros d0. rewrite Hrun. rewrite ?Hp. reflexivity.
  - (* float32 *)
    unfold setWithProperType, SetFloat; simpl. rewrite Hm; simpl.
    destruct (ParseFloat _ 32) as [z [e|]] eqn:Hp.
    + eexists d, _. split; [reflexivity|]. right; left. split; [reflexivity|].
      eexists. split; reflexivity.
    + eexists _, errors. split; [reflexivity|]. left. split; [reflexivity|].
      split; [reflexivity|]. intros d0. unfold setWithProperType, SetFloat; simpl.
      rewrite Hm, Hp. reflexivity.
  - (* float64 *)
    unfold setWithProperType, SetFloat; simpl. rewrite Hm; simpl.
    destruct (ParseFloat _ 64) as [z [e|]] eqn:Hp.
    + eexists d, _. split; [reflexivity|]. right; left. split; [reflexivity|].
      eexists. split; reflexivity.
    + eexists _, errors. split; [reflexivity|]. left. split; [reflexivity|].
      split; [reflexivity|]. intros d0. unfold setWithProperType, SetFloat; simpl.
      rewrite Hm, Hp. reflexivity.
  - (* string *)
    unfold setWithProperType, SetString; simpl. rewrite Hm; simpl.
    eexists _, errors. split; [reflexivity|]. left. split; [reflexivity|].
    split; [reflexivity|]. intros d0. unfold setWithProperType, SetString; simpl.
    rewrite Hm. reflexivity.
  - exists d, errors. split; [reflexivity|]. right; right. repeat split; trivial. left; reflexivity.
  - exists d, errors. split; [reflexivity|]. right; right. repeat split; trivial. left; reflexivity.
  - exists d, errors. split; [reflexivity|]. right; right. repeat split; trivial. left; reflexivity.
Qed.

Lemma setWithProperType_returns fl t d val nameInTag errors :
  CanSet fl = true ->
  exists r, setWithProperType (Kind_of t) val (mkValue fl t d) nameInTag errors = Return r.
Proof.
  intros Hset.
  destruct (setWithProperType_cases fl t d val nameInTag errors Hset) as (d' & e' & Hr & _).
  eauto.
Qed.

(** C9 (amended).  [setWithProperType] returns normally for every
    supported kind, the narrow integer widths included, and every literal,
    on a settable field of that kind.  It then has stored a value that the
    literal alone determines, or has appended the typed coercion error of the
    kind and left the field, or - for a boolean literal that parses as false -
    has left both the field and its errors as they were.  A literal that
    parses as a 64-bit integer is stored converted to the width of the field,
    whatever its size. *)
Theorem setWithProperType_total fl t d val nameInTag errors :
  CanSet fl = true ->
  supported (Kind_of t) = true ->
  (exists d' errors',
     setWithProperType (Kind_of t) val (mkValue fl t d) nameInTag errors = Return (d', errors') /\
     ((errors' = errors /\ stores fl t val nameInTag errors d')
      \/ (d' = d /\ exists e, coercion_error (Kind_of t) nameInTag = Some e /\ errors' = errors ++ [e])
      \/ (d' = d /\ errors' = errors /\ t = TBool /\
          strconv.ParseBool (if String.eqb val "" then "false" else val) = Some false)))
  /\ (forall w z, t = TInt w -> val <> "" -> strconv.ParseInt val = (z, None) ->
        setWithProperType (Kind_of t) val (mkValue fl t d) nameInTag errors
        = Return (VInt (wrap_signed (bits w) z), errors))
  /\ (forall w z, t = TUint w -> val <> "" -> strconv.ParseUint val = (z, None) ->
        setWithProperType (Kind_of t) val (mkValue fl t d) nameInTag errors
        = Return (VUint (wrap_unsigned (bits w) z), errors)).
Proof.
  intros Hset Hsup. pose proof (mustBeAssignable_CanSet fl Hset) as Hm. split; [|split].
  - destruct (setWithProperType_cases fl t d val nameInTag errors Hset)
      as (d' & errors' & Hr & [Hw | [He | (Hd & He & [Hu | (Ht & _ & Hp)])]]).
    + exists d', errors'. auto.
    + exists d', errors'. auto.
    + congruence.
    + exists d', errors'. split; [exact Hr|]. right; right. auto.
  - intros w z -> Hne Hp.
    assert (Hv : String.eqb val "" = false) by (apply String.eqb_neq; exact Hne).
    unfold setWithProperType, SetInt; simpl v_flag; simpl v_type.
    rewrite Hm, Hv, Hp. destruct w; reflexivity.
  - intros w z -> Hne Hp.
    assert (Hv : String.eqb val "" = false) by (apply String.eqb_neq; exact Hne).
    unfold setWithProperType, SetUint; simpl v_flag; simpl v_type.
    rewrite Hm, Hv, Hp. destruct w; reflexivity.
Qed.

(** ** Binding one field *)

Lemma setElems_spec elem inputValue nameInTag errors :
  exists slice,
    setElems (Kind_of elem) elem inputValue nameInTag errors = Return slice /\
    length slice = length inputValue /\
    forall (j : nat) val, inputValue !! j = Some val ->
      exists r,
        setWithProperType (Kind_of elem) val (mkValue flag_settable elem (Zero elem))
          nameInTag errors = Return r /\
        slice !! j = Some (fst r).
Proof.
  induction inputValue as [|val rest IH].
  - exists []. split; [reflexivity|]. split; [reflexivity|]. intros j v Hj. discriminate.
  - destruct IH as (slice & Hs & Hlen & Hel).
    destruct (setWithProperType_returns flag_settable elem (Zero elem) val nameInTag errors
                eq_refl) as (r & Hr).
    exists (fst r :: slice). simpl. rewrite Hr, Hs. simpl.
    split; [reflexivity|]. split; [congruence|].
    intros [|j] v Hj; simpl in Hj.
    + injection Hj as <-. exists r. auto.
    + destruct (Hel j v Hj) as (r' & Hr' & Hj'). exists r'. auto.
Qed.

Lemma mapFields_lookup fl fs vs form formfile errors vs' (i : nat) f x :
  mapFields fl fs vs form formfile errors = Return vs' ->
  fs !! i = Some f -> vs !! i = Some x ->
  exists x', mapField fl f x form formfile errors = Return x' /\ vs' !! i = Some x'.
Proof.
  revert vs vs' i.
  induction fs as [|g fs IH]; intros vs vs' i Hrun Hf Hx; [discriminate|].
  destruct vs as [|y vs]; [discriminate|].
  simpl in Hrun. inv_bind Hrun. inv_bind Hrun. injection Hrun as <-.
  destruct i as [|i]; simpl in Hf, Hx.
  - injection Hf as <-. injection Hx as <-. exists a. split; [exact Ha | reflexivity].
  - exact (IH vs a0 i Ha0 Hf Hx).
Qed.

Lemma mapField_keyed fl f x form formfile errors :
  keyed f = true ->
  mapField fl f x form formfile errors =
  if negb (String.eqb (Tag_Get (Tag f) "form") "")
  then mapTagged (Field_flag fl f) f x form formfile errors
  else Return x.
Proof.
  unfold keyed, mapField. destruct (Type_ f); try reflexivity; try discriminate.
  destruct (Anonymous f); [discriminate | reflexivity].
Qed.




(** ** The validator only appends *)

Lemma matchRule_app errors field fieldValue zero rule :
  matchRule errors field fieldValue zero rule =
  let* app := matchRule [] field fieldValue zero rule in Return (errors ++ app).
Proof.
  unfold matchRule, Add.
  destruct (rule_argument rule) as [arg|msg]; simpl;
    repeat (case_match; simpl; rewrite ?app_nil_r; try reflexivity).
Qed.

Lemma matchRules_app errors field fieldValue zero rules :
  matchRules errors field fieldValue zero rules =
  let* app := matchRules [] field fieldValue zero rules in Return (errors ++ app).
Proof.
  revert errors. induction rules as [|rule rules IH]; intros errors; simpl.
  - rewrite app_nil_r. reflexivity.
  - rewrite (matchRule_app errors).
    destruct (matchRule [] field fieldValue zero rule) as [app1|msg]; simpl; [|reflexivity].
    rewrite (IH (errors ++ app1)), (IH app1).
    destruct (matchRules [] field fieldValue zero rules) as [app2|msg]; simpl; [|reflexivity].
    rewrite app_assoc. reflexivity.
Qed.

Lemma validateStruct_ptr errors name fs vs :
  validateStruct errors (TPtr (TStruct name fs)) (VPtr (Some (VStruct vs))) =
  validateStruct errors (TStruct name fs) (VStruct vs).
Proof. reflexivity. Qed.

Lemma validateField_app errors f x :
  appends (Type_ f) ->
  validateField errors f x = let* app := validateField [] f x in Return (errors ++ app).
Proof.
  intros IH. unfold validateField.
  destruct (validated f); simpl; [|rewrite app_nil_r; reflexivity].
  destruct (descends f x); simpl.
  - rewrite (IH errors).
    destruct (validateStruct [] (Type_ f) x) as [app1|msg]; simpl; [|reflexivity].
    rewrite (matchRules_app (errors ++ app1)), (matchRules_app app1).
    destruct (matchRules [] f x _ _) as [app2|msg]; simpl; [|reflexivity].
    rewrite app_assoc. reflexivity.
  - apply matchRules_app.
Qed.

Lemma validateFields_app errors fs vs :
  Forall (fun f => appends (Type_ f)) fs ->
  validateFields errors fs vs = let* app := validateFields [] fs vs in Return (errors ++ app).
Proof.
  intros Hfs. revert errors vs.
  induction Hfs as [|f fs Hf Hfs IH]; intros errors vs.
  - simpl. rewrite app_nil_r. reflexivity.
  - destruct vs as [|x vs]; [reflexivity|]. simpl.
    rewrite (validateField_app errors f x Hf).
    destruct (validateField [] f x) as [app1|msg]; simpl; [|reflexivity].
    rewrite (IH (errors ++ app1)), (IH app1).
    destruct (validateFields [] fs vs) as [app2|msg]; simpl; [|reflexivity].
    rewrite app_assoc. reflexivity.
Qed.

Lemma validateStruct_app t : appends t.
Proof.
  induction t as [|w|w| | | |elem IH|elem IH|name fs IH] using type_shape_ind;
    intros errors v; try reflexivity.
  - destruct v as [| | | | |p| |]; try reflexivity.
    destruct elem as [| | | | | | | |n fs]; try (destruct p; reflexivity).
    destruct p as [[| | | | | | |vs]|];
      try (simpl; destruct (forallb _ fs); simpl; rewrite ?app_nil_r; reflexivity).
    rewrite !validateStruct_ptr. apply IH.
  - destruct v as [| | | | | | |vs]; try reflexivity.
    rewrite !validateStruct_struct. apply validateFields_app. exact IH.
Qed.

(** ** What the binder leaves alone *)

Lemma mapTagged_absent fl f x form formfile errors :
  form !! Tag_Get (Tag f) "form" = None ->
  formfile !! Tag_Get (Tag f) "form" = None ->
  mapTagged fl f x form formfile errors = Return x.
Proof.
  intros Hform Hfile. unfold mapTagged. rewrite Hform, Hfile.
  destruct (negb (CanSet fl)); reflexivity.
Qed.

Lemma mapField_absent fl f x form formfile errors :
  keyed f = true ->
  form !! Tag_Get (Tag f) "form" = None ->
  formfile !! Tag_Get (Tag f) "form" = None ->
  mapField fl f x form formfile errors = Return x.
Proof.
  intros Hk Hform Hfile. rewrite mapField_keyed by exact Hk.
  destruct (negb _); [apply mapTagged_absent; assumption | reflexivity].
Qed.

Lemma field_at_keyed_struct t x rest f y :
  field_at t x rest = Some (f, y) -> exists name fs vs, t = TStruct name fs /\ x = VStruct vs.
Proof.
  destruct rest as [|i rest]; [discriminate|].
  destruct t; try discriminate. destruct x; try discriminate. eauto.
Qed.

(** C3 (amended).  A field that is reached through records nested by value,
    that is neither an anonymous pointer nor a record itself, and whose key
    is in neither map: the loop body returns it as it was, for every flag and
    every [errors] it is run with, and it holds its value from before the
    call at the end of every [mapForm] that returns. *)
Theorem mapForm_absent_key fl typ data form formfile errors path f x :
  field_at typ data path = Some (f, x) ->
  keyed f = true ->
  form !! Tag_Get (Tag f) "form" = None ->
  formfile !! Tag_Get (Tag f) "form" = None ->
  (forall fl0 errors0, mapField fl0 f x form formfile errors0 = Return x) /\
  (forall data',
     mapForm fl typ data form formfile errors = Return data' ->
     field_at typ data' path = Some (f, x)).
Proof.
  intros Hat Hk Hform Hfile. split.
  { intros fl0 errors0. apply mapField_absent; assumption. }
  revert fl typ data Hat.
  induction path as [|i rest IH]; intros fl typ data Hat data' Hrun; [discriminate|].
  destruct typ as [| | | | | | | |name fs]; try discriminate.
  destruct data as [| | | | | | |vs]; try discriminate.
  rewrite mapForm_struct in Hrun. inv_bind Hrun. injection Hrun as <-.
  simpl in Hat. simpl.
  destruct (fs !! i) as [g|] eqn:Hg; [|discriminate].
  destruct (vs !! i) as [y|] eqn:Hy; [|discriminate].
  destruct (mapFields_lookup _ _ _ _ _ _ _ _ _ _ Ha Hg Hy) as (y' & Hstep & Hy').
  rewrite Hy'.
  destruct rest as [|j rest].
  - injection Hat as -> ->.
    rewrite mapField_absent in Hstep by assumption. congruence.
  - destruct (field_at_keyed_struct _ _ _ _ _ Hat) as (n' & fs' & vs' & Ht & ->).
    unfold mapField in Hstep. rewrite Ht in Hstep. rewrite <- Ht in Hstep.
    exact (IH _ _ _ Hat _ Hstep).
Qed.

(** ** Anonymous embedded pointers *)

Lemma DeepEqual_Zero t : forall v, DeepEqual v (Zero t) = at_zero t v.
Proof.
  induction t as [|w|w| | | |elem IH|elem IH|name fs IH] using type_shape_ind; intros v;
    try (destruct v as [[|]| | | | |[?|]|[?|]|]; reflexivity).
  destruct v as [| | | | |[?|]|[?|]|vs]; try reflexivity. simpl.
  revert vs. induction IH as [|f fs Hf Hfs IHfs]; intros [|x vs]; try reflexivity.
  simpl. rewrite Hf. f_equal. apply IHfs.
Qed.

(** C4 (amended).  For an anonymous embedded pointer field that can be set,
    whatever the pointer held: a fresh zero record is allocated and
    [mapForm] runs on it; the field ends up nil exactly when every reachable
    field of that record is still at its zero value, and points to the
    record otherwise.  This is the step of the loop, and what the field holds
    at the end of every [mapForm] of the enclosing record that returns. *)
Theorem mapForm_embedded_pointer fl name fs vs form formfile errors (i : nat) f x elem :
  fs !! i = Some f -> vs !! i = Some x ->
  Type_ f = TPtr elem -> Anonymous f = true ->
  CanSet (Field_flag fl f) = true ->
  let after (e : value) := if at_zero elem e then VPtr None else VPtr (Some e) in
  mapField fl f x form formfile errors =
    (let* e := mapForm (Elem_flag (Field_flag fl f)) elem (Zero elem) form formfile errors in
     Return (after e)) /\
  (forall data',
     mapForm fl (TStruct name fs) (VStruct vs) form formfile errors = Return data' ->
     exists vs' e,
       data' = VStruct vs' /\
       mapForm (Elem_flag (Field_flag fl f)) elem (Zero elem) form formfile errors = Return e /\
       vs' !! i = Some (after e)).
Proof.
  intros Hf Hx Ht Hanon Hset after.
  assert (Hstep : mapField fl f x form formfile errors =
    (let* e := mapForm (Elem_flag (Field_flag fl f)) elem (Zero elem) form formfile errors in
     Return (after e))).
  { unfold mapField. rewrite Ht, Hanon. unfold Set_. simpl v_flag.
    rewrite (mustBeAssignable_CanSet _ Hset). simpl.
    apply bind_ext. intros e. unfold after. rewrite DeepEqual_Zero.
    destruct (at_zero elem e); reflexivity. }
  split; [exact Hstep|].
  intros data' Hrun. rewrite mapForm_struct in Hrun. inv_bind Hrun. injection Hrun as <-.
  destruct (mapFields_lookup _ _ _ _ _ _ _ _ _ _ Ha Hf Hx) as (x' & Hx' & Hi).
  rewrite Hstep in Hx'. inv_bind Hx'. injection Hx' as <-.
  exists a, a0. auto.
Qed.

(** ** The order of the validator's errors *)

Lemma validateFields_cons errors f fs x vs out :
  validateFields errors (f :: fs) (x :: vs) = Return out ->
  exists app rest,
    validateField [] f x = Return app /\
    validateFields [] fs vs = Return rest /\
    out = errors ++ app ++ rest.
Proof.
  simpl. intros Hrun.
  rewrite (validateField_app errors f x (validateStruct_app _)) in Hrun.
  rewrite bind_assoc in Hrun. inv_bind Hrun. simpl in Hrun.
  rewrite validateFields_app in Hrun
    by (apply Forall_forall; intros; apply validateStruct_app).
  inv_bind Hrun. injection Hrun as <-.
  exists a, a0. rewrite app_assoc. auto.
Qed.

Lemma validateFields_split errors fs vs out (i : nat) f x :
  validateFields errors fs vs = Return out ->
  fs !! i = Some f -> vs !! i = Some x ->
  exists before app after,
    out = errors ++ before ++ app ++ after /\
    validateFields [] (take i fs) (take i vs) = Return before /\
    validateField [] f x = Return app /\
    validateFields [] (drop (S i) fs) (drop (S i) vs) = Return after.
Proof.
  revert errors vs out i.
  induction fs as [|g fs IH]; intros errors vs out i Hrun Hf Hx; [discriminate|].
  destruct vs as [|y vs]; [discriminate|].
  destruct (validateFields_cons _ _ _ _ _ _ Hrun) as (app & rest & Happ & Hrest & ->).
  destruct i as [|i]; simpl in Hf, Hx.
  - injection Hf as <-. injection Hx as <-.
    exists [], app, rest. simpl. rewrite !drop_0. auto.
  - destruct (IH _ _ _ _ Hrest Hf Hx) as (before & app' & after & -> & Hb & Ha & Hafter).
    exists (app ++ before), app', after. simpl. split.
    + rewrite <- !app_assoc. reflexivity.
    + split; [|auto].
      rewrite Happ. simpl.
      rewrite validateFields_app by (apply Forall_forall; intros; apply validateStruct_app).
      rewrite Hb. reflexivity.
Qed.

Lemma validateField_parts f x app :
  validateField [] f x = Return app ->
  exists nested rules,
    app = nested ++ rules /\
    (if validated f && descends f x
     then validateStruct [] (Type_ f) x = Return nested else nested = []) /\
    (if validated f
     then matchRules [] f x (Zero (Type_ f)) (rules_of f) = Return rules else rules = []).
Proof.
  unfold validateField. intros Hrun.
  destruct (validated f); simpl.
  - destruct (descends f x); simpl in *.
    + inv_bind Hrun. rewrite matchRules_app in Hrun. inv_bind Hrun. injection Hrun as <-.
      exists a, a0. auto.
    + exists [], app. auto.
  - injection Hrun as <-. exists [], []. auto.
Qed.

Lemma entry_parse_errors (parseErr : option error) :
  Forall binder_error
    match parseErr with
    | Some parseErr => Add [] [] DeserializationError (Error_ parseErr)
    | None => []
    end.
Proof.
  destruct parseErr; [|constructor].
  repeat constructor.
Qed.

(** C7 (amended).  The returned [Errors] keep the order of discovery.  (1)
    What [Form], [MultipartForm] and [Json] return for a record target is
    the errors recorded before validation - deserialization errors that name
    no field - followed by the errors of [validate] on the record just
    bound: for [Form] and [MultipartForm] the record that [mapForm] leaves,
    from the parsed form or the multipart form of the request, for [Json]
    the argument as the decoder leaves it.  (2) For a record, or a
    pointer to one, [validate] is the hook of the target's type, when it has
    one, applied once to the outcome of the whole built-in pass, and the
    built-in pass itself otherwise; the built-in pass does not depend on the
    method sets.  (3) For a sequence target the built-in pass of an element
    is followed by the hook of that element, before the next element.  (4)
    The built-in pass keeps the errors it is given and goes through the
    fields in declaration order; for a field it looks at, the violations
    found by descending into its nested record come first and the violations
    of the field's own rules after them. *)
Theorem errors_in_discovery_order :
  (forall typ formStruct req t d rebuild formStruct' errs,
     deref_target typ formStruct = Structure t d rebuild ->
     Form typ formStruct req = Return (formStruct', errs) ->
     exists bindErrors d' validateErrs,
       Forall binder_error bindErrors /\
       mapForm flag_settable t d (fst (ParseForm req)) ∅ bindErrors = Return d' /\
       validate t d' req = Return validateErrs /\
       formStruct' = rebuild d' /\
       errs = bindErrors ++ validateErrs) /\
  (forall typ formStruct req t d rebuild formStruct' errs,
     deref_target typ formStruct = Structure t d rebuild ->
     MultipartForm typ formStruct req = Return (formStruct', errs) ->
     exists bindErrors mf req' d' validateErrs,
       Forall binder_error bindErrors /\
       (req' = req \/ req' = set_MultipartForm req (Some mf)) /\
       req_MultipartForm req' = Some mf /\
       mapForm flag_settable t d (Value_ mf) (File mf) bindErrors = Return d' /\
       validate t d' req' = Return validateErrs /\
       formStruct' = rebuild d' /\
       errs = bindErrors ++ validateErrs) /\
  (forall typ jsonStruct req t d rebuild jsonStruct' errs,
     deref_target typ jsonStruct = Structure t d rebuild ->
     Json typ jsonStruct req = Return (jsonStruct', errs) ->
     exists bindErrors validateErrs,
       Forall binder_error bindErrors /\
       jsonStruct' = match Body req with
                     | Some body => fst (json_Decode body typ (rebuild d))
                     | None => rebuild d
                     end /\
       validate typ jsonStruct' req = Return validateErrs /\
       errs = bindErrors ++ validateErrs) /\
  (forall typ obj req out,
     (exists name fs, typ = TStruct name fs \/ typ = TPtr (TStruct name fs)) ->
     validate typ obj req = Return out ->
     exists builtin,
       validateStruct [] typ obj = Return builtin /\
       out = match Validator_of typ with
             | Some ValidateBinder => ValidateBinder obj req builtin
             | None => builtin
             end) /\
  (forall elem e es req errors out,
     validate (TSlice elem) (VSlice (Some (e :: es))) req
     = validateElems [] elem (e :: es) req /\
     (validateElems errors elem (e :: es) req = Return out ->
      exists builtin,
        validateStruct errors elem e = Return builtin /\
        validateElems
          match Validator_of elem with
          | Some ValidateBinder => ValidateBinder e req builtin
          | None => builtin
          end elem es req = Return out)) /\
  (forall errors name fs vs out (i : nat) f x,
     validateStruct errors (TStruct name fs) (VStruct vs) = Return out ->
     fs !! i = Some f -> vs !! i = Some x ->
     exists before nested rules after,
       out = errors ++ before ++ (nested ++ rules) ++ after /\
       validateFields [] (take i fs) (take i vs) = Return before /\
       (if validated f && descends f x
        then validateStruct [] (Type_ f) x = Return nested else nested = []) /\
       (if validated f
        then matchRules [] f x (Zero (Type_ f)) (rules_of f) = Return rules else rules = []) /\
       validateFields [] (drop (S i) fs) (drop (S i) vs) = Return after).
Proof.
  split; [|split; [|split; [|split; [|split]]]].
  - intros typ formStruct req t d rebuild formStruct' errs Ht Hrun.
    unfold Form in Hrun. rewrite Ht in Hrun.
    inv_bind Hrun. inv_bind Hrun. injection Hrun as <- <-.
    eexists _, a, a0. split; [apply entry_parse_errors|].
    split; [exact Ha|]. split; [exact Ha0|]. split; reflexivity.
  - intros typ formStruct req t d rebuild formStruct' errs Ht Hrun.
    unfold MultipartForm in Hrun. rewrite Ht in Hrun.
    destruct (req_MultipartForm req) as [mf|] eqn:Hmf.
    + rewrite Hmf in Hrun. inv_bind Hrun. inv_bind Hrun. injection Hrun as <- <-.
      exists [], mf, req, a, a0. split; [constructor|]. split; [left; reflexivity|].
      split; [exact Hmf|]. split; [exact Ha|]. split; [exact Ha0|]. split; reflexivity.
    + destruct (MultipartReader req) as [ReadForm|err]; [|rewrite Hmf in Hrun; discriminate].
      destruct (ReadForm MaxMemory) as [form parseErr].
      simpl req_MultipartForm in Hrun. destruct form as [mf|]; [|discriminate].
      inv_bind Hrun. inv_bind Hrun. injection Hrun as <- <-.
      eexists _, mf, (set_MultipartForm req (Some mf)), a, a0.
      split; [apply entry_parse_errors|]. split; [right; reflexivity|].
      split; [reflexivity|]. split; [exact Ha|]. split; [exact Ha0|]. split; reflexivity.
  - intros typ jsonStruct req t d rebuild jsonStruct' errs Ht Hrun.
    unfold Json in Hrun. rewrite Ht in Hrun.
    destruct (Body req) as [body|].
    + destruct (json_Decode body typ (rebuild d)) as [decoded err].
      inv_bind Hrun. injection Hrun as <- <-.
      exists match err with
             | Some io_EOF | None => []
             | Some err => Add [] [] DeserializationError (Error_ err)
             end, a.
      split; [destruct err as [[|msg]|]; repeat constructor|].
      split; [reflexivity|]. split; [exact Ha|]. reflexivity.
    + inv_bind Hrun. injection Hrun as <- <-.
      exists [], a. split; [constructor|]. split; [reflexivity|]. split; [exact Ha|].
      reflexivity.
  - intros typ obj req out (name & fs & Htyp) Hrun.
    assert (Hplain : validate typ obj req =
                     let* bindErrors := validateStruct [] typ obj in
                     match Validator_of typ with
                     | Some ValidateBinder => Return (ValidateBinder obj req bindErrors)
                     | None => Return bindErrors
                     end).
    { unfold validate. destruct Htyp as [-> | ->]; [reflexivity|].
      destruct obj as [| | | | |[d|]| |]; reflexivity. }
    rewrite Hplain in Hrun. inv_bind Hrun. exists a. split; [exact Ha|].
    destruct (Validator_of typ); injection Hrun as <-; reflexivity.
  - intros elem e es req errors out. split; [reflexivity|].
    simpl. intros Hrun. inv_bind Hrun. exists a. auto.
  - intros errors name fs vs out i f x Hrun Hf Hx.
    rewrite validateStruct_struct in Hrun.
    destruct (validateFields_split _ _ _ _ _ _ _ Hrun Hf Hx)
      as (before & app & after & -> & Hb & Happ & Hafter).
    destruct (validateField_parts _ _ _ Happ) as (nested & rules & -> & Hn & Hr).
    exists before, nested, rules, after. auto.
Qed.

(** ** Which fields the validator's errors name *)

Lemma declared_names_struct name fs : declared_names (TStruct name fs) = fields_names fs.
Proof.
  simpl. induction fs as [|f fs IH]; [reflexivity|].
  simpl. rewrite IH. reflexivity.
Qed.

Lemma matchRule_names f x zero rule app :
  matchRule [] f x zero rule = Return app ->
  Forall (fun e => FieldNames e = [Name f]) app.
Proof.
  unfold matchRule, Add.
  destruct (rule_argument rule) as [arg|msg]; simpl;
    repeat (case_match; simpl; try discriminate);
    intros Hrun; injection Hrun as <-; repeat constructor.
Qed.

Lemma matchRules_cons f x zero rule rules out :
  matchRules [] f x zero (rule :: rules) = Return out ->
  exists app rest,
    matchRule [] f x zero rule = Return app /\
    matchRules [] f x zero rules = Return rest /\
    out = app ++ rest.
Proof.
  simpl. intros Hrun. inv_bind Hrun. rewrite matchRules_app in Hrun. inv_bind Hrun.
  injection Hrun as <-. eauto.
Qed.

Lemma matchRules_names f x zero rules out :
  matchRules [] f x zero rules = Return out ->
  Forall (fun e => FieldNames e = [Name f]) out.
Proof.
  revert out. induction rules as [|rule rules IH]; intros out Hrun.
  - injection Hrun as <-. constructor.
  - destruct (matchRules_cons _ _ _ _ _ _ Hrun) as (app & rest & Ha & Hr & ->).
    apply Forall_app. split; [eapply matchRule_names; eauto | auto].
Qed.

Lemma named_in_mono names names' e :
  (forall n, In n names -> In n names') -> named_in names e -> named_in names' e.
Proof. intros Hsub (n & Hn & Hin). exists n. auto. Qed.

Lemma validateFields_names fs :
  Forall (fun f => forall v out, validateStruct [] (Type_ f) v = Return out ->
                   Forall (named_in (declared_names (Type_ f))) out) fs ->
  forall vs out, validateFields [] fs vs = Return out -> Forall (named_in (fields_names fs)) out.
Proof.
  induction 1 as [|f fs Hf Hfs IH]; intros vs out Hrun.
  - injection Hrun as <-. constructor.
  - destruct vs as [|x vs]; [discriminate|].
    destruct (validateFields_cons _ _ _ _ _ _ Hrun) as (app & rest & Happ & Hrest & ->).
    destruct (validateField_parts _ _ _ Happ) as (nested & rules & -> & Hn & Hr).
    simpl. rewrite <- app_assoc.
    apply Forall_app; split; [|apply Forall_app; split].
    + destruct (validated f && descends f x); [|subst; constructor].
      eapply Forall_impl; [exact (Hf _ _ Hn)|].
      intros e. apply named_in_mono. intros n Hin. unfold fields_names. simpl.
      right. apply in_or_app. auto.
    + destruct (validated f); [|subst; constructor].
      eapply Forall_impl; [exact (matchRules_names _ _ _ _ _ Hr)|].
      intros e He. exists (Name f). split; [exact He|]. unfold fields_names. simpl. auto.
    + eapply Forall_impl; [exact (IH _ _ Hrest)|].
      intros e. apply named_in_mono. intros n Hin. unfold fields_names. simpl.
      right. apply in_or_app. auto.
Qed.

Lemma validateStruct_names t :
  forall v out, validateStruct [] t v = Return out -> Forall (named_in (declared_names t)) out.
Proof.
  induction t as [|w|w| | | |elem IH|elem IH|name fs IH] using type_shape_ind;
    intros v out Hrun; try discriminate.
  - destruct v as [| | | | |p| |]; try discriminate.
    destruct elem as [| | | | | | | |n fs]; try (destruct p; discriminate).
    destruct p as [[| | | | | | |vs]|];
      try (simpl in Hrun; destruct (forallb _ fs);
           [injection Hrun as <-; constructor | discriminate]).
    rewrite validateStruct_ptr in Hrun. exact (IH _ _ Hrun).
  - destruct v as [| | | | | | |vs]; try discriminate.
    rewrite validateStruct_struct in Hrun. rewrite declared_names_struct.
    exact (validateFields_names fs IH vs out Hrun).
Qed.

(** ** Counting the Required errors of a field *)






(** ** The validator returns *)

Lemma HasPrefix_same_length s prefix :
  strings.HasPrefix s prefix = true -> String.length s = String.length prefix -> s = prefix.
Proof.
  revert s. induction prefix as [|p prefix IH]; intros [|c s]; simpl; try discriminate; auto.
  intros Hp Hlen. apply andb_true_iff in Hp as [Hc Hp]. apply Ascii.eqb_eq in Hc.
  f_equal; [exact Hc | apply IH; [exact Hp | lia]].
Qed.

Lemma HasPrefix_length s prefix :
  strings.HasPrefix s prefix = true -> (String.length prefix <= String.length s)%nat.
Proof.
  revert s. induction prefix as [|p prefix IH]; intros [|c s]; simpl; try discriminate; try lia.
  intros Hp. apply andb_true_iff in Hp as [_ Hp]. apply IH in Hp. lia.
Qed.

Lemma rule_argument_returns rule :
  strings.HasPrefix rule "MinSize(" = true \/ strings.HasPrefix rule "MaxSize(" = true ->
  rule_ok rule = true ->
  exists arg, rule_argument rule = Return arg.
Proof.
  intros Hp Hok. unfold rule_argument.
  destruct (String.length rule <? 9)%nat eqn:Hlen; [|eauto].
  apply Nat.ltb_lt in Hlen. exfalso.
  unfold rule_ok in Hok. apply negb_true_iff, orb_false_iff in Hok as [Hmin Hmax].
  apply String.eqb_neq in Hmin, Hmax.
  destruct Hp as [Hp|Hp]; pose proof (HasPrefix_length _ _ Hp) as Hge; simpl in Hge;
    apply HasPrefix_same_length in Hp; simpl; try lia; congruence.
Qed.

Lemma matchRule_returns errors f x zero rule :
  rule_ok rule = true -> exists out, matchRule errors f x zero rule = Return out.
Proof.
  intros Hok. unfold matchRule.
  repeat case_match; eauto;
    match goal with
    | Hp : strings.HasPrefix rule _ = true |- _ =>
        destruct (rule_argument_returns rule ltac:(auto) Hok) as (arg & ->); simpl;
        repeat case_match; eauto
    end.
Qed.

Lemma matchRules_returns errors f x zero rules :
  forallb rule_ok rules = true -> exists out, matchRules errors f x zero rules = Return out.
Proof.
  revert errors. induction rules as [|rule rules IH]; intros errors Hok; simpl; [eauto|].
  simpl in Hok. apply andb_true_iff in Hok as [Hr Hrs].
  destruct (matchRule_returns errors f x zero rule Hr) as (out & ->). simpl. auto.
Qed.

Lemma descends_walkable f x :
  has_type (Type_ f) x = true -> descends f x = true -> walkable (Type_ f) x = true.
Proof.
  unfold descends, walkable. destruct (Type_ f) as [| | | | | |elem| |]; try discriminate; auto.
  destruct elem; try discriminate.
  destruct x as [| | | | |[?|]| |]; try discriminate; auto.
Qed.

Lemma validateFields_returns name fs :
  Forall (fun f => returns_on (Type_ f)) fs ->
  forall errors vs,
    has_type (TStruct name fs) (VStruct vs) = true ->
    rules_ok (TStruct name fs) = true ->
    exists out, validateFields errors fs vs = Return out.
Proof.
  induction 1 as [|f fs Hf Hfs IH]; intros errors vs Hty Hok; [simpl; eauto|].
  destruct vs as [|x vs]; [discriminate|].
  change (has_type (Type_ f) x && has_type (TStruct name fs) (VStruct vs) = true) in Hty.
  change (forallb rule_ok (strings.Split (Tag_Get (Tag f) "binding") ";")
          && rules_ok (Type_ f) && rules_ok (TStruct name fs) = true) in Hok.
  apply andb_true_iff in Hty as [Hx Hvs].
  apply andb_true_iff in Hok as [Hok Hfsok]. apply andb_true_iff in Hok as [Hrules Hfok].
  assert (Hstep : exists errors', validateField errors f x = Return errors').
  { unfold validateField. destruct (validated f); [|eauto].
    destruct (descends f x) eqn:Hd.
    - destruct (Hf errors x Hx Hfok (descends_walkable _ _ Hx Hd)) as (e1 & ->). simpl.
      apply matchRules_returns. exact Hrules.
    - simpl. apply matchRules_returns. exact Hrules. }
  destruct Hstep as (errors' & Hstep). simpl. rewrite Hstep. simpl.
  apply IH; assumption.
Qed.

Lemma validateStruct_returns t : returns_on t.
Proof.
  induction t as [|w|w| | | |elem IH|elem IH|name fs IH] using type_shape_ind;
    intros errors v Hty Hok Hwalk; try discriminate.
  - destruct elem as [| | | | | | | |n fs]; try discriminate.
    destruct v as [| | | | |[d|]| |]; try discriminate.
    simpl in Hty. destruct d as [| | | | | | |vs]; try discriminate.
    rewrite validateStruct_ptr. apply IH; auto.
  - destruct v as [| | | | | | |vs]; try discriminate.
    rewrite validateStruct_struct. eapply validateFields_returns; eauto.
Qed.

(** ** The Required rule *)





(** ** Dispatch *)

(** C2 (amended).  With an empty Content-Type, [Bind] binds nothing and
    returns the single "Empty Content-Type" error when the method is POST or
    PUT, and takes the form path for every other method.  A Content-Type that
    contains form-urlencoded takes the form path.  A Content-Type that is not
    empty and contains none of form-urlencoded, multipart/form-data and json
    gives the single "Unsupported Content-Type" error. *)
Theorem Bind_dispatch typ obj req :
  (Content_Type req = "" ->
   Bind typ obj req =
     if String.eqb (Method req) "POST" || String.eqb (Method req) "PUT"
     then Return (obj, [ErrorEmptyContentType])
     else Form typ obj req) /\
  (strings.Contains (Content_Type req) "form-urlencoded" = true ->
   Bind typ obj req = Form typ obj req) /\
  (Content_Type req <> "" ->
   strings.Contains (Content_Type req) "form-urlencoded" = false ->
   strings.Contains (Content_Type req) "multipart/form-data" = false ->
   strings.Contains (Content_Type req) "json" = false ->
   Bind typ obj req = Return (obj, [ErrorUnsupportedContentType])).
Proof.
  unfold Bind. split; [|split].
  - intros ->. simpl.
    destruct (String.eqb (Method req) "POST" || String.eqb (Method req) "PUT"); reflexivity.
  - intros Hc. rewrite Hc.
    destruct (String.eqb (Method req) "POST" || String.eqb (Method req) "PUT"
              || negb (String.eqb (Content_Type req) "")); reflexivity.
  - intros Hne H1 H2 H3. apply String.eqb_neq in Hne. rewrite Hne, H1, H2, H3. simpl.
    rewrite orb_true_r. reflexivity.
Qed.

(** ** An unparsable multipart body *)

Lemma MultipartForm_no_form typ formStruct req t d rebuild :
  deref_target typ formStruct = Structure t d rebuild ->
  req_MultipartForm req = None ->
  (exists err, MultipartReader req = inr err)
  \/ (exists ReadForm parseErr,
        MultipartReader req = inl ReadForm /\ ReadForm MaxMemory = (None, parseErr)) ->
  MultipartForm typ formStruct req = Panic "invalid memory address or nil pointer dereference".
Proof.
  intros Ht Hmf Hreader. unfold MultipartForm. rewrite Ht, Hmf.
  destruct Hreader as [(err & ->) | (ReadForm & parseErr & -> & Hread)].
  - rewrite Hmf. reflexivity.
  - rewrite Hread. reflexivity.
Qed.

End Facts.

(** * Further properties *)

Section Further.

Context `{GoLibs} `{MethodSets}.

(** ** Fields of a record, one at a time *)

Lemma mapForm_field fl name fs vs form formfile errors (i : nat) f x data' :
  fs !! i = Some f -> vs !! i = Some x ->
  mapForm fl (TStruct name fs) (VStruct vs) form formfile errors = Return data' ->
  exists vs' x',
    data' = VStruct vs' /\
    mapField fl f x form formfile errors = Return x' /\
    vs' !! i = Some x'.
Proof.
  intros Hf Hx Hrun. rewrite mapForm_struct in Hrun. inv_bind Hrun. injection Hrun as <-.
  destruct (mapFields_lookup _ _ _ _ _ _ _ _ _ _ Ha Hf Hx) as (x' & Hstep & Hi).
  eauto.
Qed.

Lemma mapForm_ptr fl name fs vs form formfile errors :
  mapForm fl (TPtr (TStruct name fs)) (VPtr (Some (VStruct vs))) form formfile errors =
  let* vs' := mapFields (Elem_flag fl) fs vs form formfile errors in
  Return (VPtr (Some (VStruct vs'))).
Proof.
  simpl. f_equal. generalize (Elem_flag fl) as fl'. intros fl'. revert vs.
  induction fs as [|f fs IH]; intros [|x vs]; simpl; try reflexivity.
  rewrite IH. reflexivity.
Qed.

(** ** Integer literals *)

Lemma wrap_signed_id n z :
  0 < n -> - 2 ^ (n - 1) <= z < 2 ^ (n - 1) -> wrap_signed n z = z.
Proof.
  intros Hn Hz. unfold wrap_signed.
  assert (Hp : 2 ^ n = 2 * 2 ^ (n - 1)).
  { rewrite <- Z.pow_succ_r by lia. f_equal. lia. }
  rewrite Z.mod_small by lia. lia.
Qed.

Lemma wrap_unsigned_id n z : 0 <= z < 2 ^ n -> wrap_unsigned n z = z.
Proof. intros Hz. unfold wrap_unsigned. apply Z.mod_small. exact Hz. Qed.

Lemma uint_loop_range s n z :
  0 <= n <= strconv.maxUint64 ->
  strconv.uint_loop s n = (z, None) -> 0 <= z <= strconv.maxUint64.
Proof.
  revert n. induction s as [|c s IH]; intros n Hn Hrun; simpl in Hrun.
  - injection Hrun as <-. exact Hn.
  - destruct (negb (strconv.is_digit c)) eqn:Hd; [discriminate|].
    destruct (strconv.maxUint64 / 10 + 1 <=? n); [discriminate|].
    destruct (strconv.maxUint64 <? n * 10 + strconv.digit c) eqn:Hmax; [discriminate|].
    apply Z.ltb_ge in Hmax.
    apply negb_false_iff in Hd. unfold strconv.is_digit in Hd.
    apply andb_true_iff in Hd as [Hlo _]. apply Z.leb_le in Hlo.
    apply (IH (n * 10 + strconv.digit c)); [|exact Hrun].
    unfold strconv.digit in *. lia.
Qed.

Lemma ParseUint_range s z :
  strconv.ParseUint s = (z, None) -> 0 <= z < 2 ^ 64.
Proof.
  unfold strconv.ParseUint. destruct s as [|c s]; [discriminate|]. intros Hrun.
  apply uint_loop_range in Hrun; [|unfold strconv.maxUint64; lia].
  unfold strconv.maxUint64 in Hrun. lia.
Qed.

Lemma uint_loop_ErrRange s n un :
  strconv.uint_loop s n = (un, Some strconv.ErrRange) -> un = strconv.maxUint64.
Proof.
  revert n. induction s as [|c s IH]; intros n Hrun; simpl in Hrun; [discriminate|].
  destruct (negb (strconv.is_digit c)); [discriminate|].
  destruct (strconv.maxUint64 / 10 + 1 <=? n); [congruence|].
  destruct (strconv.maxUint64 <? n * 10 + strconv.digit c); [congruence|].
  exact (IH _ Hrun).
Qed.

Lemma ParseInt_range s z :
  strconv.ParseInt s = (z, None) -> - 2 ^ 63 <= z < 2 ^ 63.
Proof.
  unfold strconv.ParseInt. destruct s as [|c s]; [discriminate|].
  destruct (strconv.ParseUint _) as [un [[|]|]] eqn:Hu; try discriminate.
  - assert (Hmax : un = strconv.maxUint64).
    { unfold strconv.ParseUint in Hu.
      destruct (if Ascii.eqb c "+" || Ascii.eqb c "-" then s else String c s);
        [discriminate | exact (uint_loop_ErrRange _ _ _ Hu)]. }
    subst un. destruct (Ascii.eqb c "-"); simpl; discriminate.
  - apply ParseUint_range in Hu.
    destruct (Ascii.eqb c "-"); simpl.
    + destruct (2 ^ 63 <? un) eqn:Hc; [discriminate|]. apply Z.ltb_ge in Hc.
      intros Hrun. injection Hrun as <-. lia.
    + destruct (2 ^ 63 <=? un) eqn:Hc; [discriminate|]. apply Z.leb_gt in Hc.
      intros Hrun. injection Hrun as <-. lia.
Qed.

(** X1.  A literal that parses as an integer within the range of the field
    is stored as that integer, and no error is appended; [int] and [int64]
    fields ([uint] and [uint64] fields) hold every literal that parses. *)
Theorem setWithProperType_exact fl w d val nameInTag errors z :
  CanSet fl = true -> val <> "" ->
  (strconv.ParseInt val = (z, None) ->
   - 2 ^ (bits w - 1) <= z < 2 ^ (bits w - 1) \/ bits w = 64 ->
   setWithProperType (Kind_of (TInt w)) val (mkValue fl (TInt w) d) nameInTag errors
   = Return (VInt z, errors)) /\
  (strconv.ParseUint val = (z, None) ->
   z < 2 ^ bits w \/ bits w = 64 ->
   setWithProperType (Kind_of (TUint w)) val (mkValue fl (TUint w) d) nameInTag errors
   = Return (VUint z, errors)).
Proof.
  intros Hset Hne. pose proof (mustBeAssignable_CanSet fl Hset) as Hm.
  assert (Hv : String.eqb val "" = false) by (apply String.eqb_neq; exact Hne).
  split; intros Hp Hrange.
  - assert (Hz : wrap_signed (bits w) z = z).
    { apply wrap_signed_id; [apply bits_pos|].
      destruct Hrange as [Hr | Hr]; [exact Hr|].
      rewrite Hr. apply ParseInt_range in Hp. simpl. lia. }
    unfold setWithProperType, SetInt; simpl v_flag; simpl v_type.
    rewrite Hm, Hv, Hp. destruct w; simpl in *; rewrite Hz; reflexivity.
  - assert (Hz : wrap_unsigned (bits w) z = z).
    { apply wrap_unsigned_id. pose proof (ParseUint_range _ _ Hp) as Hr.
      destruct Hrange as [Hlt | H64]; [lia | rewrite H64; lia]. }
    unfold setWithProperType, SetUint; simpl v_flag; simpl v_type.
    rewrite Hm, Hv, Hp. destruct w; simpl in *; rewrite Hz; reflexivity.
Qed.

(** X2.  The empty literal: an integer field of any width is set to 0, a
    string field to the empty string, a boolean field is left as it is; no
    error is appended. *)
Theorem setWithProperType_empty fl d nameInTag errors :
  CanSet fl = true ->
  (forall w, setWithProperType (Kind_of (TInt w)) "" (mkValue fl (TInt w) d) nameInTag errors
             = Return (VInt 0, errors)) /\
  (forall w, setWithProperType (Kind_of (TUint w)) "" (mkValue fl (TUint w) d) nameInTag errors
             = Return (VUint 0, errors)) /\
  setWithProperType reflect.String "" (mkValue fl TString d) nameInTag errors
  = Return (VString "", errors) /\
  setWithProperType reflect.Bool "" (mkValue fl TBool d) nameInTag errors
  = Return (d, errors).
Proof.
  intros Hset. pose proof (mustBeAssignable_CanSet fl Hset) as Hm.
  repeat split.
  - intros w. unfold setWithProperType, SetInt; simpl v_flag; simpl v_type.
    rewrite Hm. destruct w; reflexivity.
  - intros w. unfold setWithProperType, SetUint; simpl v_flag; simpl v_type.
    rewrite Hm. destruct w; reflexivity.
  - unfold setWithProperType, SetString; simpl. rewrite Hm. reflexivity.
Qed.

(** ** Identity of types *)

Lemma Width_eqb_eq a b : Width_eqb a b = true -> a = b.
Proof. destruct a, b; simpl; congruence. Qed.

Lemma type_eqb_eq a : forall b, type_eqb a b = true -> a = b.
Proof.
  induction a as [|w|w| | | |elem IH|elem IH|name fs IH] using type_shape_ind;
    intros b Heq; destruct b; try discriminate; try reflexivity.
  - f_equal. apply Width_eqb_eq. exact Heq.
  - f_equal. apply Width_eqb_eq. exact Heq.
  - f_equal. apply IH. exact Heq.
  - f_equal. apply IH. exact Heq.
  - simpl in Heq. apply andb_true_iff in Heq as [Hn Hfs].
    apply String.eqb_eq in Hn. subst. f_equal.
    revert fields Hfs. induction IH as [|f fs Hf Hfs IHfs]; intros [|g gs] Heq;
      try discriminate; [reflexivity|].
    repeat (apply andb_true_iff in Heq as [Heq ?]).
    f_equal; [|apply IHfs; assumption].
    destruct f, g; simpl in *.
    repeat match goal with
           | Hs : String.eqb _ _ = true |- _ => apply String.eqb_eq in Hs
           | Hb : Bool.eqb _ _ = true |- _ => apply Bool.eqb_prop in Hb
           | Hd : bool_decide _ = true |- _ => apply bool_decide_eq_true in Hd
           end.
    subst. f_equal. apply Hf. assumption.
Qed.

Lemma type_eqb_neq a b : a <> b -> type_eqb a b = false.
Proof.
  intros Hne. destruct (type_eqb a b) eqn:Heq; [|reflexivity].
  apply type_eqb_eq in Heq. contradiction.
Qed.

(** ** Files *)


(** ** An empty list of values *)


(** ** Read-only values *)

Lemma mustBeAssignable_read_only fl :
  flagStickyRO fl = true ->
  mustBeAssignable fl = Panic "reflect: value obtained using unexported field".
Proof. intros Hro. unfold mustBeAssignable, flagRO. rewrite Hro. reflexivity. Qed.

Lemma mapFields_same fl fs vs form formfile errors vs' :
  Forall (fun f => forall x x', In x vs ->
            mapField fl f x form formfile errors = Return x' -> x' = x) fs ->
  mapFields fl fs vs form formfile errors = Return vs' -> vs' = vs.
Proof.
  intros Hfs. revert vs vs' Hfs.
  induction fs as [|f fs IH]; intros vs vs' Hfs Hrun.
  - injection Hrun as <-. reflexivity.
  - destruct vs as [|x vs]; [discriminate|]. simpl in Hrun.
    inv_bind Hrun. inv_bind Hrun. injection Hrun as <-.
    apply Forall_cons in Hfs as [Hf Hfs].
    f_equal; [apply Hf; [left; reflexivity | exact Ha]|].
    apply IH; [|exact Ha0].
    eapply Forall_impl; [exact Hfs|]. intros g Hg y y' Hin. apply Hg. right. exact Hin.
Qed.

Lemma mapForm_read_only t :
  forall fl data form formfile errors data',
    flagStickyRO fl = true ->
    mapForm fl t data form formfile errors = Return data' -> data' = data.
Proof.
  induction t as [|w|w| | | |elem IH|elem IH|name fs IH] using type_shape_ind;
    intros fl data form formfile errors data' Hro Hrun; try (destruct data; discriminate).
  - (* through a pointer *)
    destruct data as [| | | | |[d|]| |]; try discriminate;
      [|destruct elem; discriminate].
    destruct elem as [| | | | | | | |n fs]; try discriminate.
    destruct d as [| | | | | | |vs]; try discriminate.
    specialize (IH (Elem_flag fl) (VStruct vs) form formfile errors).
    rewrite mapForm_ptr in Hrun. rewrite mapForm_struct in IH.
    inv_bind Hrun. injection Hrun as <-.
    rewrite Ha in IH. specialize (IH _ Hro eq_refl). congruence.
  - destruct data as [| | | | | | |vs]; try discriminate.
    rewrite mapForm_struct in Hrun. inv_bind Hrun. injection Hrun as <-. f_equal.
    apply (mapFields_same fl fs vs form formfile errors); [|exact Ha].
    eapply Forall_impl; [exact IH|]. intros f Hf x x' _ Hstep.
    assert (Hsticky : flagStickyRO (Field_flag fl f) = true)
      by (unfold Field_flag; simpl; rewrite Hro; reflexivity).
    assert (Hcan : CanSet (Field_flag fl f) = false).
    { unfold CanSet, flagRO. rewrite Hsticky. simpl. apply andb_false_r. }
    assert (Htagged :
      (if negb (String.eqb (Tag_Get (Tag f) "form") "")
       then mapTagged (Field_flag fl f) f x form formfile errors else Return x) = Return x' ->
      x' = x).
    { unfold mapTagged. rewrite Hcan. simpl. destruct (negb _); congruence. }
    unfold mapField in Hstep.
    destruct (Type_ f) as [| | | | | |elem|elem|n' fs'] eqn:Ht; try (apply Htagged; exact Hstep).
    + destruct (Anonymous f); [|apply Htagged; exact Hstep].
      unfold Set_ in Hstep. simpl v_flag in Hstep.
      rewrite (mustBeAssignable_read_only _ Hsticky) in Hstep. discriminate.
    + rewrite <- Ht in Hstep. exact (Hf _ _ _ _ _ _ Hsticky Hstep).
Qed.

(** X5.  A field that is not exported and not embedded is never written:
    neither the field nor anything below it.  Whenever [mapForm] returns on
    the record, the field holds what it held. *)
Theorem mapForm_unexported_field fl name fs vs form formfile errors (i : nat) f x data' :
  fs !! i = Some f -> vs !! i = Some x ->
  IsExported f = false -> Anonymous f = false ->
  mapForm fl (TStruct name fs) (VStruct vs) form formfile errors = Return data' ->
  exists vs', data' = VStruct vs' /\ vs' !! i = Some x.
Proof.
  intros Hf Hx Hexp Hanon Hrun.
  destruct (mapForm_field _ _ _ _ _ _ _ _ _ _ _ Hf Hx Hrun) as (vs' & x' & -> & Hstep & Hi).
  exists vs'. split; [reflexivity|]. rewrite Hi. f_equal.
  assert (Hsticky : flagStickyRO (Field_flag fl f) = true)
    by (unfold Field_flag; simpl; rewrite Hexp, Hanon; simpl; apply orb_true_r).
  assert (Hcan : CanSet (Field_flag fl f) = false).
  { unfold CanSet, flagRO. rewrite Hsticky. simpl. apply andb_false_r. }
  unfold mapField in Hstep. rewrite Hanon in Hstep.
  assert (Htagged :
    (if negb (String.eqb (Tag_Get (Tag f) "form") "")
     then mapTagged (Field_flag fl f) f x form formfile errors else Return x) = Return x' ->
    x' = x).
  { unfold mapTagged. rewrite Hcan. simpl. destruct (negb _); congruence. }
  destruct (Type_ f) as [| | | | | |elem|elem|n' fs'] eqn:Ht; try (apply Htagged; exact Hstep).
  rewrite <- Ht in Hstep. exact (mapForm_read_only _ _ _ _ _ _ _ Hsticky Hstep).
Qed.

(** ** The binder keeps the record well typed *)

Lemma has_type_struct name fs vs :
  has_type (TStruct name fs) (VStruct vs) = true <->
  Forall2 (fun f x => has_type (Type_ f) x = true) fs vs.
Proof.
  revert vs. induction fs as [|f fs IH]; intros [|x vs]; simpl.
  - split; [constructor | reflexivity].
  - split; [discriminate | intros Hf; inversion Hf].
  - split; [discriminate | intros Hf; inversion Hf].
  - change (has_type (Type_ f) x && has_type (TStruct name fs) (VStruct vs) = true <->
            Forall2 (fun f x => has_type (Type_ f) x = true) (f :: fs) (x :: vs)).
    rewrite andb_true_iff, IH. split.
    + intros [Hx Hvs]. constructor; assumption.
    + intros Hf. inversion Hf; subst. auto.
Qed.

Lemma has_type_Zero t : has_type t (Zero t) = true.
Proof.
  induction t as [|w|w| | | |elem IH|elem IH|name fs IH] using type_shape_ind;
    try reflexivity.
  - simpl. destruct w; reflexivity.
  - simpl. destruct w; reflexivity.
  - apply has_type_struct. simpl. induction IH as [|f fs Hf Hfs IHfs]; constructor; auto.
Qed.

Lemma setWithProperType_has_type fl t d val nameInTag errors r :
  CanSet fl = true -> has_type t d = true ->
  setWithProperType (Kind_of t) val (mkValue fl t d) nameInTag errors = Return r ->
  has_type t (fst r) = true.
Proof.
  intros Hset Hd Hrun.
  destruct (setWithProperType_cases fl t d val nameInTag errors Hset)
    as (d' & errors' & Hr & [[_ [Hty _]] | [[-> _] | [-> _]]]);
    rewrite Hr in Hrun; injection Hrun as <-; assumption.
Qed.

Lemma setElems_has_type elem inputValue nameInTag errors slice :
  setElems (Kind_of elem) elem inputValue nameInTag errors = Return slice ->
  forallb (has_type elem) slice = true.
Proof.
  revert slice. induction inputValue as [|val rest IH]; intros slice Hrun; simpl in Hrun.
  - injection Hrun as <-. reflexivity.
  - inv_bind Hrun. inv_bind Hrun. injection Hrun as <-. simpl.
    rewrite (setWithProperType_has_type flag_settable elem (Zero elem) val nameInTag errors a
               eq_refl (has_type_Zero elem) Ha).
    apply IH. exact Ha0.
Qed.

Lemma mapTagged_has_type fl f x form formfile errors x' :
  files_ok formfile -> has_type (Type_ f) x = true ->
  mapTagged fl f x form formfile errors = Return x' ->
  has_type (Type_ f) x' = true.
Proof.
  intros Hfiles Hx. unfold mapTagged.
  destruct (CanSet fl) eqn:Hset; simpl; [|congruence].
  pose proof (mustBeAssignable_CanSet _ Hset) as Hm. unfold Set_. simpl. rewrite Hm. simpl.
  destruct (form !! Tag_Get (Tag f) "form") as [inputValue|].
  - destruct inputValue as [|val0 rest]; [destruct (Type_ f); discriminate|].
    assert (Hscalar :
      (let* r := setWithProperType (Kind_of (Type_ f)) val0 (mkValue fl (Type_ f) x)
                   (Tag_Get (Tag f) "form") errors in Return (fst r)) = Return x' ->
      has_type (Type_ f) x' = true).
    { intros Hrun. inv_bind Hrun. injection Hrun as <-.
      eapply setWithProperType_has_type; eauto. }
    destruct (Type_ f) as [| | | | | | |elem|] eqn:Ht; try exact Hscalar.
    intros Hrun. inv_bind Hrun. injection Hrun as <-. simpl.
    eapply setElems_has_type; eauto.
  - destruct (formfile !! Tag_Get (Tag f) "form") as [inputFile|] eqn:Hfile; [|congruence].
    pose proof (Hfiles _ _ Hfile) as Hall.
    assert (Hone :
      (if type_eqb (Type_ f) fhType
       then match inputFile with
            | file0 :: _ => Return file0
            | [] => Panic "index out of range [0] with length 0"
            end
       else Return x) = Return x' -> has_type (Type_ f) x' = true).
    { destruct (type_eqb (Type_ f) fhType) eqn:Heq; [|congruence].
      apply type_eqb_eq in Heq. rewrite Heq.
      destruct inputFile as [|file0 files]; [discriminate|].
      intros Hrun. injection Hrun as <-. simpl in Hall.
      apply andb_true_iff in Hall as [Hfile0 _]. exact Hfile0. }
    destruct (Type_ f) as [| | | | | | |elem|] eqn:Ht;
      try (destruct inputFile; exact Hone).
    destruct inputFile as [|file0 files]; [exact Hone|].
    destruct (type_eqb elem fhType) eqn:Heq; [|congruence].
    apply type_eqb_eq in Heq. subst elem. intros Hrun. injection Hrun as <-. exact Hall.
Qed.

Lemma mapFields_has_type fl fs vs form formfile errors vs' :
  Forall (fun f => forall x x', has_type (Type_ f) x = true ->
            mapField fl f x form formfile errors = Return x' ->
            has_type (Type_ f) x' = true) fs ->
  Forall2 (fun f x => has_type (Type_ f) x = true) fs vs ->
  mapFields fl fs vs form formfile errors = Return vs' ->
  Forall2 (fun f x => has_type (Type_ f) x = true) fs vs'.
Proof.
  intros Hfs Hvs. revert vs' Hfs.
  induction Hvs as [|f x fs vs Hx Hvs IH]; intros vs' Hfs Hrun.
  - injection Hrun as <-. constructor.
  - simpl in Hrun. inv_bind Hrun. inv_bind Hrun. injection Hrun as <-.
    apply Forall_cons in Hfs as [Hf Hfs].
    constructor; [exact (Hf _ _ Hx Ha) | exact (IH _ Hfs Ha0)].
Qed.

Lemma mapForm_keeps_type_below t :
  keeps_type t /\ match t with TPtr elem => keeps_type elem | _ => True end.
Proof.
  induction t as [|w|w| | | |elem IH|elem IH|name fs IH] using type_shape_ind;
    try (split; [intros fl data form formfile errors data' _ _ Hrun;
                 destruct data; discriminate | exact I]).
  - destruct IH as [IH _]. split; [|exact IH].
    intros fl data form formfile errors data' Hfiles Hty Hrun.
    destruct data as [| | | | |[d|]| |]; try discriminate; [|destruct elem; discriminate].
    destruct elem as [| | | | | | | |n fs]; try discriminate.
    destruct d as [| | | | | | |vs]; try discriminate.
    rewrite mapForm_ptr in Hrun. inv_bind Hrun. injection Hrun as <-.
    change (has_type (TStruct n fs) (VStruct a) = true).
    apply (IH (Elem_flag fl) (VStruct vs) form formfile errors); [exact Hfiles | exact Hty|].
    rewrite mapForm_struct, Ha. reflexivity.
  - split; [|exact I].
    intros fl data form formfile errors data' Hfiles Hty Hrun.
    destruct data as [| | | | | | |vs]; try discriminate.
    rewrite mapForm_struct in Hrun. inv_bind Hrun. injection Hrun as <-.
    apply has_type_struct. apply has_type_struct in Hty.
    apply (mapFields_has_type fl fs vs form formfile errors); [|exact Hty | exact Ha].
    eapply Forall_impl; [exact IH|]. intros f [Hf Hbelow] x x' Hx Hstep.
    assert (Htagged :
      (if negb (String.eqb (Tag_Get (Tag f) "form") "")
       then mapTagged (Field_flag fl f) f x form formfile errors else Return x) = Return x' ->
      has_type (Type_ f) x' = true).
    { destruct (negb _); [apply mapTagged_has_type; assumption | congruence]. }
    unfold mapField in Hstep.
    destruct (Type_ f) as [| | | | | |elem|elem|n' fs'] eqn:Ht; try (apply Htagged; exact Hstep).
    + destruct (Anonymous f); [|apply Htagged; exact Hstep].
      apply bind_Return in Hstep as (u & _ & Hstep).
      apply bind_Return in Hstep as (e & Hrec & Hstep).
      assert (He : has_type elem e = true)
        by (exact (Hbelow _ _ _ _ _ _ Hfiles (has_type_Zero elem) Hrec)).
      destruct (DeepEqual e (Zero elem)).
      * unfold Set_ in Hstep. apply bind_Return in Hstep as (u' & _ & Hstep).
        injection Hstep as <-. reflexivity.
      * injection Hstep as <-. exact He.
    + exact (Hf _ _ _ _ _ _ Hfiles Hx Hstep).
Qed.

(** X6.  Binding keeps the record well typed: when the files of the
    file-values map are file headers and [mapForm] returns on a well-typed
    value, the value it leaves is well typed again (every integer within the
    range of its field's width). *)
Theorem mapForm_has_type fl t data form formfile errors data' :
  files_ok formfile -> has_type t data = true ->
  mapForm fl t data form formfile errors = Return data' ->
  has_type t data' = true.
Proof. apply (proj1 (mapForm_keeps_type_below t)). Qed.

(** ** The binder returns *)

Lemma mapTagged_returns fl f x form formfile errors :
  lists_ok form -> lists_ok formfile ->
  exists x', mapTagged fl f x form formfile errors = Return x'.
Proof.
  intros Hform Hfile. unfold mapTagged.
  destruct (CanSet fl) eqn:Hset; simpl; [|eauto].
  pose proof (mustBeAssignable_CanSet _ Hset) as Hm. unfold Set_. simpl. rewrite Hm. simpl.
  destruct (form !! Tag_Get (Tag f) "form") as [inputValue|] eqn:Hin.
  - destruct inputValue as [|val0 rest]; [exfalso; exact (Hform _ _ Hin eq_refl)|].
    assert (Hscalar : exists x',
      (let* r := setWithProperType (Kind_of (Type_ f)) val0 (mkValue fl (Type_ f) x)
                   (Tag_Get (Tag f) "form") errors in Return (fst r)) = Return x').
    { destruct (setWithProperType_returns fl (Type_ f) x val0 (Tag_Get (Tag f) "form")
                  errors Hset) as (r & ->). simpl. eauto. }
    destruct (Type_ f) as [| | | | | | |elem|] eqn:Ht; try exact Hscalar.
    destruct (setElems_spec elem (val0 :: rest) (Tag_Get (Tag f) "form") errors)
      as (slice & -> & _). simpl. eauto.
  - destruct (formfile !! Tag_Get (Tag f) "form") as [inputFile|] eqn:Hfl; [|eauto].
    destruct inputFile as [|file0 files]; [exfalso; exact (Hfile _ _ Hfl eq_refl)|].
    destruct (Type_ f) as [| | | | | | |elem|]; simpl;
      repeat match goal with
             | |- context [type_eqb ?a ?b] => destruct (type_eqb a b)
             end; eauto.
Qed.

Lemma mapFields_returns fl name fs vs form formfile errors :
  Forall (fun f => forall x, has_type (Type_ f) x = true ->
            bindable (TStruct name [f]) fl = true ->
            exists x', mapField fl f x form formfile errors = Return x') fs ->
  has_type (TStruct name fs) (VStruct vs) = true ->
  bindable (TStruct name fs) fl = true ->
  exists vs', mapFields fl fs vs form formfile errors = Return vs'.
Proof.
  intros Hfs Hty. apply has_type_struct in Hty. revert Hfs.
  induction Hty as [|f x fs vs Hx Hvs IH]; intros Hfs Hb; [simpl; eauto|].
  apply Forall_cons in Hfs as [Hf Hfs].
  simpl in Hb. apply andb_true_iff in Hb as [Hbf Hbfs].
  destruct (Hf x Hx) as (x' & Hstep).
  { simpl. rewrite Hbf. reflexivity. }
  destruct (IH Hfs Hbfs) as (vs' & Hrest).
  exists (x' :: vs'). simpl. rewrite Hstep, Hrest. reflexivity.
Qed.

Lemma mapForm_binds_below t :
  binds t /\ match t with TPtr elem => binds elem | _ => True end.
Proof.
  induction t as [|w|w| | | |elem IH|elem IH|name fs IH] using type_shape_ind;
    try (split; [intros fl data form formfile errors _ _ _ _ (n & l & Heq); discriminate
                | exact I]).
  - destruct IH as [IH _]. split; [|exact IH].
    intros fl data form formfile errors _ _ _ _ (n & l & Heq). discriminate.
  - split; [|exact I].
    intros fl data form formfile errors Hty Hb Hform Hfile _.
    destruct data as [| | | | | | |vs]; try discriminate.
    rewrite mapForm_struct.
    destruct (mapFields_returns fl name fs vs form formfile errors) as (vs' & ->);
      [|exact Hty | exact Hb | simpl; eauto].
    eapply Forall_impl; [exact IH|]. intros f [Hf Hbelow] x Hx Hbf.
    simpl in Hbf. rewrite andb_true_r in Hbf.
    assert (Htagged : exists x',
      (if negb (String.eqb (Tag_Get (Tag f) "form") "")
       then mapTagged (Field_flag fl f) f x form formfile errors else Return x) = Return x').
    { destruct (negb _); [apply mapTagged_returns; assumption | eauto]. }
    unfold mapField.
    destruct (Type_ f) as [| | | | | |elem|elem|n' fs'] eqn:Ht; try exact Htagged.
    + destruct (Anonymous f); [|exact Htagged].
      apply andb_true_iff in Hbf as [Hbf Hbelem]. apply andb_true_iff in Hbf as [Hset Hstruct].
      unfold Set_. simpl v_flag. rewrite (mustBeAssignable_CanSet _ Hset). simpl.
      destruct (Hbelow (Elem_flag (Field_flag fl f)) (Zero elem) form formfile errors
                  (has_type_Zero elem) Hbelem Hform Hfile) as (e & ->).
      { destruct elem; try discriminate. eauto. }
      simpl. destruct (DeepEqual e (Zero elem)); eauto.
    + apply Hf; eauto.
Qed.

(** X7.  On a well-typed record of a type that does not contain itself,
    [mapForm] does not panic, and so returns, when the anonymous pointer
    fields it meets can be set and point to records and no key of the two
    maps holds an empty list; what it returns is well typed when the files
    are file headers. *)
Theorem mapForm_returns fl name fs vs form formfile errors :
  has_type (TStruct name fs) (VStruct vs) = true ->
  bindable (TStruct name fs) fl = true ->
  lists_ok form -> lists_ok formfile ->
  exists vs',
    mapForm fl (TStruct name fs) (VStruct vs) form formfile errors = Return (VStruct vs') /\
    (files_ok formfile -> has_type (TStruct name fs) (VStruct vs') = true).
Proof.
  intros Hty Hb Hform Hfile.
  destruct (proj1 (mapForm_binds_below (TStruct name fs)) fl (VStruct vs) form formfile errors
              Hty Hb Hform Hfile ltac:(eauto)) as (data' & Hrun).
  pose proof Hrun as Hrun'. rewrite mapForm_struct in Hrun'.
  apply bind_Return in Hrun' as (vs' & _ & Heq). injection Heq as <-.
  exists vs'. split; [exact Hrun|].
  intros Hfiles. exact (proj1 (mapForm_keeps_type_below _) _ _ _ _ _ _ Hfiles Hty Hrun).
Qed.

Lemma lists_ok_empty {A : Type} : lists_ok (∅ : gmap string (list A)).
Proof. intros key l Hl. rewrite lookup_empty in Hl. discriminate. Qed.

Lemma files_ok_empty : files_ok ∅.
Proof. intros key l Hl. rewrite lookup_empty in Hl. discriminate. Qed.

Lemma lists_ok_singleton {A : Type} (key : string) (l : list A) :
  l <> [] -> lists_ok ({[ key := l ]} : gmap string (list A)).
Proof. intros Hl key' l' Hk. apply lookup_singleton_Some in Hk as [_ <-]. exact Hl. Qed.

Lemma files_ok_singleton (key : string) (files : list value) :
  forallb (has_type fhType) files = true -> files_ok {[ key := files ]}.
Proof. intros Hl key' l' Hk. apply lookup_singleton_Some in Hk as [_ <-]. exact Hl. Qed.

Lemma mapForm_target_returns name fs vs form formfile errors :
  has_type (TStruct name fs) (VStruct vs) = true ->
  bindable (TStruct name fs) flag_settable = true ->
  lists_ok form -> lists_ok formfile -> files_ok formfile ->
  exists vs',
    mapForm flag_settable (TStruct name fs) (VStruct vs) form formfile errors
    = Return (VStruct vs') /\
    has_type (TStruct name fs) (VStruct vs') = true.
Proof.
  intros Hty Hb Hform Hfile Hfiles.
  destruct (proj1 (mapForm_binds_below (TStruct name fs)) flag_settable (VStruct vs) form
              formfile errors Hty Hb Hform Hfile ltac:(eauto)) as (data' & Hrun).
  pose proof Hrun as Hrun'. rewrite mapForm_struct in Hrun'.
  apply bind_Return in Hrun' as (vs' & _ & Heq). injection Heq as <-.
  exists vs'. split; [exact Hrun|].
  exact (proj1 (mapForm_keeps_type_below _) _ _ _ _ _ _ Hfiles Hty Hrun).
Qed.

Lemma validate_record_builtin name fs vs req :
  Validator_of (TStruct name fs) = None ->
  has_type (TStruct name fs) (VStruct vs) = true ->
  rules_ok (TStruct name fs) = true ->
  exists found,
    validateStruct [] (TStruct name fs) (VStruct vs) = Return found /\
    validate (TStruct name fs) (VStruct vs) req = Return found.
Proof.
  intros Hhook Hty Hok.
  destruct (validateStruct_returns (TStruct name fs) [] (VStruct vs) Hty Hok eq_refl)
    as (found & Hrun).
  exists found. split; [exact Hrun|].
  unfold validate. cbv beta iota zeta. rewrite Hhook, Hrun. reflexivity.
Qed.

(** X8.  [Form] returns normally for every pointer to a well-typed record
    of a type that does not contain itself and has no [ValidateBinder]
    method, whose anonymous pointer fields are exported pointers to records
    and whose size rules are well formed, when no key of the parsed form
    holds an empty list.  The record it leaves is well typed, and the errors
    are the error of [ParseForm], if there was one, followed by the errors
    of the built-in validation of that record. *)
Theorem Form_returns name fs vs req :
  has_type (TStruct name fs) (VStruct vs) = true ->
  bindable (TStruct name fs) flag_settable = true ->
  rules_ok (TStruct name fs) = true ->
  Validator_of (TStruct name fs) = None ->
  lists_ok (fst (ParseForm req)) ->
  exists vs' found,
    validateStruct [] (TStruct name fs) (VStruct vs') = Return found /\
    Form (TPtr (TStruct name fs)) (VPtr (Some (VStruct vs))) req
    = Return (VPtr (Some (VStruct vs')),
              match snd (ParseForm req) with
              | Some parseErr => [NewError [] DeserializationError (Error_ parseErr)]
              | None => []
              end ++ found) /\
    has_type (TStruct name fs) (VStruct vs') = true.
Proof.
  intros Hty Hb Hok Hhook Hform.
  destruct (mapForm_target_returns name fs vs (fst (ParseForm req)) ∅
              match snd (ParseForm req) with
              | Some parseErr => Add [] [] DeserializationError (Error_ parseErr)
              | None => []
              end Hty Hb Hform lists_ok_empty files_ok_empty) as (vs' & Hrun & Hty').
  destruct (validate_record_builtin name fs vs' req Hhook Hty' Hok) as (found & Hfound & Hval).
  exists vs', found. split; [exact Hfound|]. split; [|exact Hty'].
  unfold Form. simpl deref_target. cbv iota beta zeta. rewrite Hrun, bind_Return_l, Hval.
  destruct (snd (ParseForm req)); reflexivity.
Qed.

(** X9.  [MultipartForm] returns normally under the same conditions on the
    target - a well-typed record of a type that does not contain itself and
    has no [ValidateBinder] method - when the multipart form is there,
    populated upstream or read by the streaming reader, with or without an
    error, its files are file headers and no key holds an empty list.  The
    record it leaves is well typed, and the errors are the deserialization
    errors of the entry point followed by the errors of the built-in
    validation of that record. *)
Theorem MultipartForm_returns name fs vs req mf :
  has_type (TStruct name fs) (VStruct vs) = true ->
  bindable (TStruct name fs) flag_settable = true ->
  rules_ok (TStruct name fs) = true ->
  Validator_of (TStruct name fs) = None ->
  req_MultipartForm req = Some mf
  \/ (req_MultipartForm req = None /\
      exists ReadForm parseErr,
        MultipartReader req = inl ReadForm /\ ReadForm MaxMemory = (Some mf, parseErr)) ->
  lists_ok (Value_ mf) -> lists_ok (File mf) -> files_ok (File mf) ->
  exists vs' bindErrors found,
    Forall binder_error bindErrors /\
    validateStruct [] (TStruct name fs) (VStruct vs') = Return found /\
    MultipartForm (TPtr (TStruct name fs)) (VPtr (Some (VStruct vs))) req
    = Return (VPtr (Some (VStruct vs')), bindErrors ++ found) /\
    has_type (TStruct name fs) (VStruct vs') = true.
Proof.
  intros Hty Hb Hok Hhook Hmf Hvalue Hfile Hfiles.
  unfold MultipartForm. simpl deref_target. cbv iota beta.
  destruct Hmf as [Hmf | (Hmf & ReadForm & parseErr & Hreader & Hread)].
  - rewrite Hmf. cbv beta iota zeta. rewrite Hmf.
    destruct (mapForm_target_returns name fs vs (Value_ mf) (File mf) []
                Hty Hb Hvalue Hfile Hfiles) as (vs' & Hrun & Hty').
    destruct (validate_record_builtin name fs vs' req Hhook Hty' Hok)
      as (found & Hfound & Hval).
    exists vs', [], found. split; [constructor|]. split; [exact Hfound|].
    split; [|exact Hty']. rewrite Hrun, bind_Return_l, Hval. reflexivity.
  - rewrite Hmf, Hreader, Hread. cbv beta iota zeta. simpl req_MultipartForm.
    destruct (mapForm_target_returns name fs vs (Value_ mf) (File mf)
                match parseErr with
                | Some parseErr => Add [] [] DeserializationError (Error_ parseErr)
                | None => []
                end Hty Hb Hvalue Hfile Hfiles) as (vs' & Hrun & Hty').
    destruct (validate_record_builtin name fs vs' (set_MultipartForm req (Some mf))
                Hhook Hty' Hok) as (found & Hfound & Hval).
    eexists vs', _, found. split; [apply (entry_parse_errors parseErr)|].
    split; [exact Hfound|]. split; [|exact Hty'].
    rewrite Hrun, bind_Return_l, Hval. reflexivity.
Qed.

(** ** An empty request *)

Lemma at_zero_Zero t : at_zero t (Zero t) = true.
Proof.
  induction t as [|w|w| | | |elem IH|elem IH|name fs IH] using type_shape_ind;
    try reflexivity.
  simpl. induction IH as [|f fs Hf Hfs IHfs]; [reflexivity|].
  simpl. rewrite Hf. exact IHfs.
Qed.

Lemma mapField_stays_zero fl f errors x' :
  stays_zero (Type_ f) ->
  match Type_ f with TPtr elem => stays_zero elem | _ => True end ->
  mapField fl f (Zero (Type_ f)) ∅ ∅ errors = Return x' -> x' = Zero (Type_ f).
Proof.
  intros Hf Hbelow Hrun.
  assert (Htagged :
    (if negb (String.eqb (Tag_Get (Tag f) "form") "")
     then mapTagged (Field_flag fl f) f (Zero (Type_ f)) ∅ ∅ errors
     else Return (Zero (Type_ f))) = Return (Zero (Type_ f))).
  { destruct (negb _); [|reflexivity]. apply mapTagged_absent; apply lookup_empty. }
  unfold mapField in Hrun. rewrite Htagged in Hrun.
  destruct (Type_ f) as [| | | | | |elem|elem|n' fs'] eqn:Ht;
    try (injection Hrun as <-; reflexivity).
  - destruct (Anonymous f); [|injection Hrun as <-; reflexivity].
    apply bind_Return in Hrun as (u & _ & Hrun).
    apply bind_Return in Hrun as (e & He & Hrun).
    apply Hbelow in He. subst e.
    rewrite DeepEqual_Zero, at_zero_Zero in Hrun.
    unfold Set_ in Hrun. apply bind_Return in Hrun as (u' & _ & Hrun).
    injection Hrun as <-. reflexivity.
  - apply Hf in Hrun. exact Hrun.
Qed.

Lemma mapForm_stays_zero_below t :
  stays_zero t /\ match t with TPtr elem => stays_zero elem | _ => True end.
Proof.
  induction t as [|w|w| | | |elem IH|elem IH|name fs IH] using type_shape_ind;
    try (split; [intros fl errors data' Hrun; discriminate | exact I]).
  - destruct IH as [IH _]. split; [|exact IH].
    intros fl errors data' Hrun. destruct elem; discriminate.
  - split; [|exact I]. intros fl errors data' Hrun.
    change (Zero (TStruct name fs)) with (VStruct (map (fun f => Zero (Type_ f)) fs)) in *.
    rewrite mapForm_struct in Hrun.
    apply bind_Return in Hrun as (vs' & Hfs & Hret). injection Hret as <-. f_equal.
    revert vs' Hfs. induction IH as [|f fs [Hf Hbelow] Hfs IHfs]; intros vs' Hrun.
    + injection Hrun as <-. reflexivity.
    + simpl in Hrun.
      apply bind_Return in Hrun as (x' & Hx & Hrun).
      apply bind_Return in Hrun as (rest & Hrest & Hrun).
      injection Hrun as <-.
      apply (mapField_stays_zero _ _ _ _ Hf Hbelow) in Hx.
      apply IHfs in Hrest. simpl. congruence.
Qed.

(** X10.  Binding an empty request never takes the zero value of a record
    away from zero: whenever [mapForm] returns on it, with no key in either
    map, every field is as it was and every anonymous embedded pointer is
    nil again. *)
Theorem mapForm_empty_request fl name fs errors data' :
  mapForm fl (TStruct name fs) (Zero (TStruct name fs)) ∅ ∅ errors = Return data' ->
  data' = Zero (TStruct name fs).
Proof. apply (proj1 (mapForm_stays_zero_below (TStruct name fs))). Qed.

(** ** The shape of the argument *)

(** X11.  An argument that is not a pointer gives the single error "not by
    reference", and a nil pointer or a pointer to anything but a record or a
    pointer gives the single error "required to be structure": in [Form],
    [MultipartForm] and [Json] alike, whatever the request, with the
    argument untouched and nothing else done. *)
Theorem entry_rejects_argument entry typ formStruct req :
  entry = Form \/ entry = MultipartForm \/ entry = Json ->
  ((forall elem, typ <> TPtr elem) ->
   entry typ formStruct req = Return (formStruct, [ErrorInputNotByReference])) /\
  (forall elem,
     typ = TPtr elem ->
     formStruct = VPtr None
     \/ ((forall name fs, elem <> TStruct name fs) /\ (forall t2, elem <> TPtr t2)) ->
     entry typ formStruct req = Return (formStruct, [ErrorInputIsNotStructure])).
Proof.
  intros Hentry. split.
  - intros Hnot.
    assert (Ht : deref_target typ formStruct = NotByReference).
    { destruct typ; try reflexivity. exfalso. eapply Hnot. reflexivity. }
    destruct Hentry as [-> | [-> | ->]]; unfold Form, MultipartForm, Json; rewrite Ht;
      reflexivity.
  - intros elem -> Hshape.
    assert (Ht : deref_target (TPtr elem) formStruct = NotStructure formStruct).
    { destruct Hshape as [-> | [Hs Hp]].
      - destruct elem; reflexivity.
      - destruct elem; try reflexivity.
        + exfalso. eapply Hp. reflexivity.
        + exfalso. eapply Hs. reflexivity. }
    destruct Hentry as [-> | [-> | ->]]; unfold Form, MultipartForm, Json; rewrite Ht;
      reflexivity.
Qed.

(** X12.  Through a pointer to a pointer to a record, [Form] behaves as
    through a pointer to the record, which it allocates at its zero value
    when the inner pointer is nil; the argument then points to the bound
    record. *)
Theorem Form_pointer_to_pointer name fs p req :
  Form (TPtr (TPtr (TStruct name fs))) (VPtr (Some (VPtr p))) req =
  let* r := Form (TPtr (TStruct name fs))
              (VPtr (Some (default (Zero (TStruct name fs)) p))) req in
  Return (VPtr (Some (fst r)), snd r).
Proof.
  unfold Form. simpl deref_target. cbv beta iota zeta.
  destruct p as [d|]; simpl default;
    match goal with
    | |- context [mapForm ?fl ?t ?d ?form ?ff ?e] => destruct (mapForm fl t d form ff e) as [d'|]
    end; simpl; try reflexivity;
    destruct (validate (TStruct name fs) d' req); reflexivity.
Qed.

(** X13.  Through a pointer to a pointer to a record, [Json] panics: its
    validation is given the argument itself, and [validateStruct] asks a
    pointer type for its fields. *)
Theorem Json_pointer_to_pointer name fs p req :
  Json (TPtr (TPtr (TStruct name fs))) (VPtr (Some (VPtr p))) req
  = Panic "reflect: NumField of non-struct type".
Proof.
  unfold Json. simpl deref_target. cbv beta iota zeta.
  destruct (Body req) as [body|].
  - destruct (json_Decode body _ _) as [decoded err].
    assert (Hval : validate (TPtr (TPtr (TStruct name fs))) decoded req
                   = Panic "reflect: NumField of non-struct type").
    { unfold validate. destruct decoded as [| | | | |[d|]| |]; reflexivity. }
    rewrite Hval. reflexivity.
  - reflexivity.
Qed.

(** ** The size rules *)

Lemma HasPrefix_refl s : strings.HasPrefix s s = true.
Proof. induction s as [|c s IH]; simpl; [reflexivity|]. rewrite Ascii.eqb_refl. exact IH. Qed.




Lemma matchRules_malformed errors f x zero rules out :
  In "MinSize(" rules \/ In "MaxSize(" rules ->
  matchRules errors f x zero rules <> Return out.
Proof.
  revert errors. induction rules as [|rule rules IH]; intros errors Hin Hrun.
  - destruct Hin as [[]|[]].
  - simpl in Hrun. apply bind_Return in Hrun as (e1 & Hrule & Hrest).
    assert (Hhere : rule = "MinSize(" \/ rule = "MaxSize(" ->  False).
    { intros [-> | ->]; discriminate Hrule. }
    apply (IH e1); [|exact Hrest].
    destruct Hin as [[Heq | Hin] | [Heq | Hin]]; auto; exfalso; apply Hhere; auto.
Qed.

(** X15.  A size rule that stops at its opening parenthesis makes the
    validator panic: no [validateStruct] returns on a record that holds a
    field it looks at with the rule "MinSize(" or "MaxSize(". *)
Theorem validateStruct_malformed_rule errors name fs vs (i : nat) f x :
  fs !! i = Some f -> vs !! i = Some x ->
  validated f = true ->
  In "MinSize(" (rules_of f) \/ In "MaxSize(" (rules_of f) ->
  forall out, validateStruct errors (TStruct name fs) (VStruct vs) <> Return out.
Proof.
  intros Hf Hx Hval Hin out Hrun. rewrite validateStruct_struct in Hrun.
  destruct (validateFields_split _ _ _ _ _ _ _ Hrun Hf Hx)
    as (before & app & after & _ & _ & Happ & _).
  destruct (validateField_parts _ _ _ Happ) as (nested & rules & _ & _ & Hr).
  rewrite Hval in Hr. exact (matchRules_malformed _ _ _ _ _ _ Hin Hr).
Qed.

(** ** The validator on well-formed input *)

(** X16.  The built-in validation only appends, and what it appends does
    not depend on what it is given.  When [validateStruct] returns on one
    accumulator, the errors it was given come back unchanged, followed by
    the errors it found; and on any other accumulator it returns as well,
    with the same errors appended. *)
Theorem validateStruct_appends t v errors0 out0 :
  validateStruct errors0 t v = Return out0 ->
  exists found,
    out0 = errors0 ++ found /\
    forall errors, validateStruct errors t v = Return (errors ++ found).
Proof.
  intros Hrun. rewrite validateStruct_app in Hrun.
  apply bind_Return in Hrun as (found & Hfound & Hret). injection Hret as <-.
  exists found. split; [reflexivity|].
  intros errors. rewrite validateStruct_app, Hfound. reflexivity.
Qed.

Lemma matchRule_class f x zero rule app :
  matchRule [] f x zero rule = Return app ->
  Forall (fun e => In (Classification e) rule_classes) app.
Proof.
  unfold matchRule, Add.
  destruct (rule_argument rule) as [arg|msg]; simpl;
    repeat (case_match; simpl; try discriminate);
    intros Hrun; injection Hrun as <-;
    first [apply List.Forall_nil | apply List.Forall_cons; [|apply List.Forall_nil]];
    unfold rule_classes; simpl; repeat (first [left; reflexivity | right]).
Qed.

Lemma matchRules_class f x zero rules out :
  matchRules [] f x zero rules = Return out ->
  Forall (fun e => In (Classification e) rule_classes) out.
Proof.
  revert out. induction rules as [|rule rules IH]; intros out Hrun.
  - injection Hrun as <-. constructor.
  - destruct (matchRules_cons _ _ _ _ _ _ Hrun) as (app & rest & Ha & Hr & ->).
    apply Forall_app. split; [eapply matchRule_class; eauto | auto].
Qed.

Lemma validateFields_class fs :
  Forall (fun f => forall v out, validateStruct [] (Type_ f) v = Return out ->
                   Forall (fun e => In (Classification e) rule_classes) out) fs ->
  forall vs out, validateFields [] fs vs = Return out ->
                 Forall (fun e => In (Classification e) rule_classes) out.
Proof.
  induction 1 as [|f fs Hf Hfs IH]; intros vs out Hrun.
  - injection Hrun as <-. constructor.
  - destruct vs as [|x vs]; [discriminate|].
    destruct (validateFields_cons _ _ _ _ _ _ Hrun) as (app & rest & Happ & Hrest & ->).
    destruct (validateField_parts _ _ _ Happ) as (nested & rules & -> & Hn & Hr).
    simpl. rewrite <- app_assoc.
    apply Forall_app; split; [|apply Forall_app; split].
    + destruct (validated f && descends f x); [exact (Hf _ _ Hn) | subst; constructor].
    + destruct (validated f); [exact (matchRules_class _ _ _ _ _ Hr) | subst; constructor].
    + exact (IH _ _ Hrest).
Qed.

Lemma validateStruct_class t :
  forall v out, validateStruct [] t v = Return out ->
                Forall (fun e => In (Classification e) rule_classes) out.
Proof.
  induction t as [|w|w| | | |elem IH|elem IH|name fs IH] using type_shape_ind;
    intros v out Hrun; try discriminate.
  - destruct v as [| | | | |p| |]; try discriminate.
    destruct elem as [| | | | | | | |n fs]; try (destruct p; discriminate).
    destruct p as [[| | | | | | |vs]|];
      try (simpl in Hrun; destruct (forallb _ fs);
           [injection Hrun as <-; constructor | discriminate]).
    rewrite validateStruct_ptr in Hrun. exact (IH _ _ Hrun).
  - destruct v as [| | | | | | |vs]; try discriminate.
    rewrite validateStruct_struct in Hrun.
    exact (validateFields_class fs IH vs out Hrun).
Qed.

(** X17.  Every error of the built-in validation names exactly one field,
    a field declared in the shape of the validated type, and carries one of
    the seven classifications of the rule catalog. *)
Theorem validateStruct_errors t v out :
  validateStruct [] t v = Return out ->
  Forall (fun e => named_in (declared_names t) e /\ In (Classification e) rule_classes) out.
Proof.
  intros Hrun. apply Forall_and. split.
  - exact (validateStruct_names t v out Hrun).
  - exact (validateStruct_class t v out Hrun).
Qed.

(** ** Binding, then the Required rule *)

(** X18.  What Required says of a field just bound from the first value of
    its key.  A string field holds that value, and violates Required exactly
    when the value is empty.  An integer field holds the literal converted to
    its width, and violates Required exactly when that is 0: a Required
    integer cannot be sent as 0. *)
Theorem bind_then_Required fl f x form formfile errors val0 rest :
  Tag_Get (Tag f) "form" <> "" ->
  CanSet (Field_flag fl f) = true ->
  form !! Tag_Get (Tag f) "form" = Some (val0 :: rest) ->
  (Type_ f = TString ->
   mapField fl f x form formfile errors = Return (VString val0) /\
   matchRule [] f (VString val0) (Zero (Type_ f)) "Required" =
   Return (if String.eqb val0 "" then [NewError [Name f] RequiredError "Required"] else [])) /\
  (forall w z,
     Type_ f = TInt w ->
     strconv.ParseInt (if String.eqb val0 "" then "0" else val0) = (z, None) ->
     mapField fl f x form formfile errors = Return (VInt (wrap_signed (bits w) z)) /\
     matchRule [] f (VInt (wrap_signed (bits w) z)) (Zero (Type_ f)) "Required" =
     Return (if wrap_signed (bits w) z =? 0
             then [NewError [Name f] RequiredError "Required"] else [])).
Proof.
  intros Hkey Hset Hform. apply String.eqb_neq in Hkey.
  pose proof (mustBeAssignable_CanSet _ Hset) as Hm.
  split.
  - intros Ht. split.
    + rewrite mapField_keyed by (unfold keyed; rewrite Ht; reflexivity).
      rewrite Hkey. simpl. unfold mapTagged. rewrite Hset, Hform, Ht. simpl.
      unfold SetString. simpl. rewrite Hm. reflexivity.
    + rewrite Ht. unfold matchRule. simpl. destruct val0; reflexivity.
  - intros w z Ht Hp. split.
    + rewrite mapField_keyed by (unfold keyed; rewrite Ht; reflexivity).
      rewrite Hkey. simpl. unfold mapTagged. rewrite Hset, Hform, Ht. simpl.
      unfold setWithProperType, SetInt. simpl v_flag. simpl v_type.
      rewrite Hm. destruct w; simpl Kind_of; cbv iota; rewrite Hp; reflexivity.
    + rewrite Ht. unfold matchRule. simpl.
      destruct (wrap_signed (bits w) z); reflexivity.
Qed.

(** ** Embedded records of an unexported type *)

Lemma mapFields_flag fl fl' fs vs form formfile errors :
  flagStickyRO fl = flagStickyRO fl' -> flagAddr fl = flagAddr fl' ->
  mapFields fl fs vs form formfile errors = mapFields fl' fs vs form formfile errors.
Proof.
  intros Hs Ha. revert vs. induction fs as [|f fs IH]; intros [|x vs]; try reflexivity.
  simpl. rewrite IH.
  assert (Hfl : Field_flag fl f = Field_flag fl' f)
    by (unfold Field_flag; rewrite Hs, Ha; reflexivity).
  unfold mapField. rewrite Hfl. reflexivity.
Qed.

(** X19.  An embedded record whose type is not exported is bound exactly
    as if it were exported - the exported fields it promotes are set - and
    is skipped by the validator, rules of its fields included. *)
Theorem embedded_unexported_record fl f x form formfile errors errs name fs :
  Anonymous f = true -> IsExported f = false -> Type_ f = TStruct name fs ->
  mapField fl f x form formfile errors = mapField fl (as_exported f) x form formfile errors /\
  validateField errs f x = Return errs.
Proof.
  intros Hanon Hexp Ht. split.
  - unfold mapField, as_exported. simpl Type_. rewrite Ht.
    destruct x as [| | | | | | |vs]; try reflexivity.
    rewrite !mapForm_struct. f_equal. apply mapFields_flag.
    + unfold Field_flag. simpl. rewrite Hexp, Hanon. simpl. reflexivity.
    + reflexivity.
  - unfold validateField, validated, CanInterface, flagRO, Field_flag. simpl.
    rewrite Hexp, Hanon. simpl. rewrite orb_true_r. reflexivity.
Qed.

(** ** What is bound does not depend on the errors *)

Lemma setWithProperType_bound valueKind val structField nameInTag errors errors' :
  bound (setWithProperType valueKind val structField nameInTag errors) =
  bound (setWithProperType valueKind val structField nameInTag errors').
Proof.
  unfold bound, setWithProperType, SetInt, SetUint, SetBool, SetFloat, SetString.
  destruct (mustBeAssignable (v_flag structField)) as [[]|msg]; simpl;
    repeat (case_match; simpl; try reflexivity).
Qed.

Lemma setElems_errors sliceOf elem inputValue nameInTag errors errors' :
  setElems sliceOf elem inputValue nameInTag errors =
  setElems sliceOf elem inputValue nameInTag errors'.
Proof.
  induction inputValue as [|val rest IH]; [reflexivity|]. simpl. rewrite IH.
  pose proof (setWithProperType_bound sliceOf val (mkValue flag_settable elem (Zero elem))
                nameInTag errors errors') as Hb.
  unfold bound in Hb.
  destruct (setWithProperType sliceOf val _ nameInTag errors) as [r|msg],
           (setWithProperType sliceOf val _ nameInTag errors') as [r'|msg'];
    simpl in *; try congruence.
  injection Hb as Hb. rewrite Hb. reflexivity.
Qed.

Lemma mapTagged_errors fl f x form formfile errors errors' :
  mapTagged fl f x form formfile errors = mapTagged fl f x form formfile errors'.
Proof.
  unfold mapTagged. destruct (negb (CanSet fl)); [reflexivity|].
  destruct (form !! Tag_Get (Tag f) "form") as [inputValue|]; [|reflexivity].
  destruct inputValue as [|val0 rest]; [reflexivity|].
  pose proof (setWithProperType_bound (Kind_of (Type_ f)) val0 (mkValue fl (Type_ f) x)
                (Tag_Get (Tag f) "form") errors errors') as Hb.
  unfold bound in Hb.
  destruct (Type_ f); try exact Hb.
  rewrite (setElems_errors _ _ _ _ errors errors'). reflexivity.
Qed.

Lemma mapFields_errors fl fs vs form formfile errors errors' :
  Forall (fun f => forall x, mapField fl f x form formfile errors
                             = mapField fl f x form formfile errors') fs ->
  mapFields fl fs vs form formfile errors = mapFields fl fs vs form formfile errors'.
Proof.
  intros Hfs. revert vs. induction Hfs as [|f fs Hf Hfs IH]; intros [|x vs]; try reflexivity.
  simpl. rewrite Hf, IH. reflexivity.
Qed.

Lemma mapForm_ignores_errors_below t :
  ignores_errors t /\ match t with TPtr elem => ignores_errors elem | _ => True end.
Proof.
  induction t as [|w|w| | | |elem IH|elem IH|name fs IH] using type_shape_ind;
    try (split; [intros fl data form formfile errors errors'; destruct data; reflexivity
                | exact I]).
  - destruct IH as [IH _]. split; [|exact IH].
    intros fl data form formfile errors errors'.
    destruct data as [| | | | |[d|]| |]; try reflexivity;
      destruct elem as [| | | | | | | |n fs]; try reflexivity.
    destruct d as [| | | | | | |vs]; try reflexivity.
    rewrite !mapForm_ptr.
    pose proof (IH (Elem_flag fl) (VStruct vs) form formfile errors errors') as Heq.
    rewrite !mapForm_struct in Heq.
    destruct (mapFields (Elem_flag fl) fs vs form formfile errors),
             (mapFields (Elem_flag fl) fs vs form formfile errors');
      simpl in *; congruence.
  - split; [|exact I].
    intros fl data form formfile errors errors'.
    destruct data as [| | | | | | |vs]; try reflexivity.
    rewrite !mapForm_struct. f_equal. apply mapFields_errors.
    eapply Forall_impl; [exact IH|]. intros f [Hf Hbelow] x.
    unfold mapField. rewrite (mapTagged_errors _ _ _ _ _ errors errors').
    destruct (Type_ f) as [| | | | | |elem|elem|n' fs'] eqn:Ht; try reflexivity.
    + destruct (Anonymous f); [|reflexivity].
      rewrite (Hbelow _ _ _ _ errors errors'). reflexivity.
    + apply Hf.
Qed.

Lemma deref_target_Structure typ formStruct t d rebuild :
  deref_target typ formStruct = Structure t d rebuild -> exists name fs, t = TStruct name fs.
Proof.
  unfold deref_target. intros Ht.
  repeat (case_match; try discriminate); injection Ht as <- <- <-; eauto.
Qed.

(** X20.  For a target whose type has no [ValidateBinder] method, what
    [Form] leaves in its argument depends on the request through the parsed
    form only: two requests with the same form - whatever their methods, and
    whether or not [ParseForm] reported an error - bind the same record, or
    panic alike. *)
Theorem Form_binds_the_form typ formStruct req req' :
  (forall t d rebuild,
     deref_target typ formStruct = Structure t d rebuild -> Validator_of t = None) ->
  fst (ParseForm req) = fst (ParseForm req') ->
  bound (Form typ formStruct req) = bound (Form typ formStruct req').
Proof.
  intros Hhook Hform. unfold bound, Form.
  destruct (deref_target typ formStruct) as [|formStruct'|t d rebuild] eqn:Ht;
    try reflexivity.
  destruct (deref_target_Structure _ _ _ _ _ Ht) as (name & fs & ->).
  rewrite <- Hform.
  rewrite (proj1 (mapForm_ignores_errors_below (TStruct name fs)) flag_settable d
             (fst (ParseForm req)) ∅ _ []).
  rewrite (proj1 (mapForm_ignores_errors_below (TStruct name fs)) flag_settable d
             (fst (ParseForm req)) ∅
             match snd (ParseForm req') with
             | Some parseErr => Add [] [] DeserializationError (Error_ parseErr)
             | None => []
             end []).
  destruct (mapForm flag_settable (TStruct name fs) d (fst (ParseForm req)) ∅ [])
    as [d'|msg]; [|reflexivity].
  rewrite !bind_Return_l. unfold validate. cbv beta iota zeta.
  rewrite (Hhook _ _ _ eq_refl).
  destruct (validateStruct [] (TStruct name fs) d') as [found|msg]; reflexivity.
Qed.

(** ** Json *)

Lemma validate_pointer_builtin name fs vs req :
  Validator_of (TPtr (TStruct name fs)) = None ->
  validate (TPtr (TStruct name fs)) (VPtr (Some (VStruct vs))) req
  = validateStruct [] (TStruct name fs) (VStruct vs).
Proof.
  intros Hhook. unfold validate. cbv beta iota zeta.
  rewrite validateStruct_ptr, Hhook.
  destruct (validateStruct [] (TStruct name fs) (VStruct vs)); reflexivity.
Qed.

(** X21.  [Json] on a pointer to a record of a type that does not contain
    itself, whose pointer type has no [ValidateBinder] method and whose size
    rules are well formed.  Without a body nothing is decoded: the argument
    is left as it is and the errors are those of the built-in validation.
    With a body, when the decoder leaves a well-typed record, [Json] returns
    the decoded record and the errors of its built-in validation, preceded
    by one DeserializationError when the decoder failed; an empty body
    (io.EOF) is not reported. *)
Theorem Json_returns name fs vs req :
  rules_ok (TStruct name fs) = true ->
  Validator_of (TPtr (TStruct name fs)) = None ->
  (Body req = None ->
   has_type (TStruct name fs) (VStruct vs) = true ->
   exists errs,
     validateStruct [] (TStruct name fs) (VStruct vs) = Return errs /\
     Json (TPtr (TStruct name fs)) (VPtr (Some (VStruct vs))) req
     = Return (VPtr (Some (VStruct vs)), errs)) /\
  (forall body vs' err,
     Body req = Some body ->
     json_Decode body (TPtr (TStruct name fs)) (VPtr (Some (VStruct vs)))
     = (VPtr (Some (VStruct vs')), err) ->
     has_type (TStruct name fs) (VStruct vs') = true ->
     exists errs,
       validateStruct [] (TStruct name fs) (VStruct vs') = Return errs /\
       Json (TPtr (TStruct name fs)) (VPtr (Some (VStruct vs))) req
       = Return (VPtr (Some (VStruct vs')),
                 match err with
                 | Some io_EOF | None => []
                 | Some e => [NewError [] DeserializationError (Error_ e)]
                 end ++ errs)).
Proof.
  intros Hok Hhook. split.
  - intros Hbody Hty.
    destruct (validateStruct_returns (TStruct name fs) [] (VStruct vs) Hty Hok eq_refl)
      as (errs & Hval).
    exists errs. split; [exact Hval|].
    unfold Json. simpl deref_target. cbv beta iota zeta. rewrite Hbody.
    cbv beta iota zeta. rewrite (validate_pointer_builtin _ _ _ _ Hhook), Hval. reflexivity.
  - intros body vs' err Hbody Hdec Hty.
    destruct (validateStruct_returns (TStruct name fs) [] (VStruct vs') Hty Hok eq_refl)
      as (errs & Hval).
    exists errs. split; [exact Hval|].
    unfold Json. simpl deref_target. cbv beta iota zeta. rewrite Hbody.
    cbv beta iota zeta. rewrite Hdec. cbv beta iota zeta.
    rewrite (validate_pointer_builtin _ _ _ _ Hhook), Hval.
    destruct err as [[|msg]|]; reflexivity.
Qed.

End Further.

(** * Worked cases *)

Import Examples.

(** C1: the failing input.  Binding rating=1&rating=2&rating=notanumber into
    [Ratings []int]: the coercer appends the IntegerTypeError to its own
    [errors], a copy of the slice header, and [Form] returns a slice of
    length 3 with index 2 at zero and no error at all. *)
Theorem Form_loses_coercion_error :
  setWithProperType reflect.Int "notanumber" (mkValue flag_settable (TInt W) (VInt 0))
    "rating" []
  = Return (VInt 0, [NewError ["rating"] IntegerTypeError "Value could not be parsed as integer"])
  /\
  Form (TPtr Rated) (VPtr (Some (Zero Rated))) (form_request "POST" formContentType ratings_form)
  = Return (VPtr (Some (VStruct [VSlice (Some [VInt 1; VInt 2; VInt 0])])), []).
Proof. split; vm_compute; reflexivity. Qed.

(** C6: the failing input.  A field tagged [form:"-"] is bound from the key
    "-" of the request. *)
Theorem Form_binds_ignored_field :
  Form (TPtr Hidden) (VPtr (Some (VStruct [VString "kept"])))
    (form_request "POST" formContentType dash_form)
  = Return (VPtr (Some (VStruct [VString "sneaky"])), []).
Proof. vm_compute. reflexivity. Qed.


(** C2: a POST with an empty Content-Type does not take the form path.
    [Bind] returns the "Empty Content-Type" error and leaves the target,
    where [Form] binds name=Bob. *)
Lemma Bind_POST_empty_content_type :
  Method (form_request "POST" "" bob_form) = "POST" /\
  Content_Type (form_request "POST" "" bob_form) = "" /\
  Bind (TPtr Person) (VPtr (Some (Zero Person))) (form_request "POST" "" bob_form)
  = Return (VPtr (Some (Zero Person)), [ErrorEmptyContentType]) /\
  Form (TPtr Person) (VPtr (Some (Zero Person))) (form_request "POST" "" bob_form)
  = Return (VPtr (Some (VStruct [VString "Bob"; VString ""])), []) /\
  Bind (TPtr Person) (VPtr (Some (Zero Person))) (form_request "POST" "" bob_form)
  <> Form (TPtr Person) (VPtr (Some (Zero Person))) (form_request "POST" "" bob_form).
Proof.
  split; [reflexivity|]. split; [reflexivity|].
  split; [vm_compute; reflexivity|]. split; [vm_compute; reflexivity|].
  vm_compute. discriminate.
Qed.

(** C3: the defaults behind an anonymous embedded pointer do not survive.
    No key is in either map, and the embedded [*Person] that held a name and
    an address before the call is nil after it. *)
Lemma embedded_defaults_are_lost :
  (∅ : gmap string (list string)) !! "name" = None /\
  (∅ : gmap string (list string)) !! "email" = None /\
  Form (TPtr EmbedPerson) (VPtr (Some (VStruct [VPtr (Some al)])))
    (form_request "POST" formContentType ∅)
  = Return (VPtr (Some (VStruct [VPtr None])), []).
Proof. split; [reflexivity|]. split; [reflexivity|]. vm_compute. reflexivity. Qed.

(** C4: a record is allocated although the pointer is not nil.  Binding
    name=Bob into an embedded [*Person] that points to Al's record yields a
    new record with Bob's name and an empty address; allocating only on nil
    would have kept Al's address. *)
Lemma embedded_pointer_is_reallocated :
  mapField flag_settable Person_field (VPtr (Some al)) bob_form ∅ []
  = Return (VPtr (Some (VStruct [VString "Bob"; VString ""]))) /\
  embedded_only_if_nil (Field_flag flag_settable Person_field) Person (VPtr (Some al))
    bob_form ∅ []
  = Return (VPtr (Some (VStruct [VString "Bob"; VString "al@example.org"]))) /\
  mapField flag_settable Person_field (VPtr (Some al)) bob_form ∅ []
  <> embedded_only_if_nil (Field_flag flag_settable Person_field) Person (VPtr (Some al))
       bob_form ∅ [].
Proof.
  split; [vm_compute; reflexivity|]. split; [vm_compute; reflexivity|].
  vm_compute. discriminate.
Qed.

(** C7: the violation found inside a field's nested record comes before
    the violation of the field's own rule.  For
    [struct { Author Person `binding:"Required"` }] left at zero, the
    RequiredError of [Author.Name] precedes the RequiredError of [Author]. *)
Lemma nested_violations_come_first :
  Form (TPtr Signed) (VPtr (Some (Zero Signed))) (form_request "POST" formContentType ∅)
  = Return (VPtr (Some (Zero Signed)),
            [NewError ["Name"] RequiredError "Required";
             NewError ["Author"] RequiredError "Required"]).
Proof. vm_compute. reflexivity. Qed.


(** C9: a literal that parses as false is neither written nor reported.
    The field that held true still holds true and no error is appended; on a
    field that held false the outcome is another one, so that no value is
    stored. *)
Lemma false_literal_is_not_written :
  setWithProperType reflect.Bool "false" (mkValue flag_settable TBool (VBool true))
    "subscribed" []
  = Return (VBool true, []) /\
  ~ stores flag_settable TBool "false" "subscribed" [] (VBool true).
Proof.
  split; [vm_compute; reflexivity|].
  intros [_ Hs]. specialize (Hs (VBool false)). vm_compute in Hs. discriminate.
Qed.

(** ** The theorems at concrete inputs *)

(** [Bind_dispatch] on four requests for a [*Person]: PUT and GET without a
    Content-Type, POST with the form Content-Type, POST with text/plain. *)
Lemma Bind_dispatch_witness :
  Bind (TPtr Person) (VPtr (Some (Zero Person))) (form_request "PUT" "" bob_form)
  = Return (VPtr (Some (Zero Person)), [ErrorEmptyContentType]) /\
  Bind (TPtr Person) (VPtr (Some (Zero Person))) (form_request "GET" "" bob_form)
  = Form (TPtr Person) (VPtr (Some (Zero Person))) (form_request "GET" "" bob_form) /\
  Bind (TPtr Person) (VPtr (Some (Zero Person))) (form_request "POST" formContentType bob_form)
  = Form (TPtr Person) (VPtr (Some (Zero Person))) (form_request "POST" formContentType bob_form) /\
  Bind (TPtr Person) (VPtr (Some (Zero Person))) (form_request "POST" "text/plain" bob_form)
  = Return (VPtr (Some (Zero Person)), [ErrorUnsupportedContentType]).
Proof.
  split; [|split; [|split]].
  - apply (proj1 (Bind_dispatch (TPtr Person) (VPtr (Some (Zero Person)))
                    (form_request "PUT" "" bob_form))).
    reflexivity.
  - apply (proj1 (Bind_dispatch (TPtr Person) (VPtr (Some (Zero Person)))
                    (form_request "GET" "" bob_form))).
    reflexivity.
  - apply (proj1 (proj2 (Bind_dispatch (TPtr Person) (VPtr (Some (Zero Person)))
                           (form_request "POST" formContentType bob_form)))).
    reflexivity.
  - apply (proj2 (proj2 (Bind_dispatch (TPtr Person) (VPtr (Some (Zero Person)))
                           (form_request "POST" "text/plain" bob_form)))).
    + simpl. discriminate.
    + reflexivity.
    + reflexivity.
    + reflexivity.
Defined.

(** [mapForm_absent_key] on Al's record bound from name=Bob: the address,
    whose key is absent, is kept. *)
Lemma mapForm_absent_key_witness :
  exists data',
    mapForm flag_settable Person al bob_form ∅ [] = Return data' /\
    field_at Person data' [1%nat] = Some (Email_field, VString "al@example.org").
Proof.
  exists (VStruct [VString "Bob"; VString "al@example.org"]).
  split; [vm_compute; reflexivity|].
  apply (proj2 (mapForm_absent_key flag_settable Person al bob_form ∅ [] [1%nat]
                  Email_field (VString "al@example.org")
                  eq_refl eq_refl
                  ltac:(vm_compute; reflexivity) ltac:(vm_compute; reflexivity))).
  vm_compute. reflexivity.
Defined.

(** [mapForm_embedded_pointer] on an [EmbedPerson] that points to Al's
    record, bound from name=Bob. *)
Lemma mapForm_embedded_pointer_witness :
  exists vs' e,
    VStruct [VPtr (Some (VStruct [VString "Bob"; VString ""]))] = VStruct vs' /\
    mapForm (Elem_flag (Field_flag flag_settable Person_field)) Person (Zero Person)
      bob_form ∅ [] = Return e /\
    vs' !! 0%nat = Some (if at_zero Person e then VPtr None else VPtr (Some e)).
Proof.
  apply (proj2 (mapForm_embedded_pointer flag_settable "EmbedPerson" [Person_field]
                  [VPtr (Some al)] bob_form ∅ [] 0 Person_field (VPtr (Some al)) Person
                  eq_refl eq_refl eq_refl eq_refl eq_refl)).
  vm_compute. reflexivity.
Defined.


(** [errors_in_discovery_order] on a zero [Signed] through [Form], on a zero
    [Post] with its hook, and on the field [Author] of a zero [Signed]. *)
Lemma errors_in_discovery_order_witness :
  (exists bindErrors d' validateErrs,
     Forall binder_error bindErrors /\
     mapForm flag_settable Signed (Zero Signed) ∅ ∅ bindErrors = Return d' /\
     validate Signed d' (form_request "POST" formContentType ∅) = Return validateErrs /\
     VPtr (Some (Zero Signed)) = VPtr (Some d') /\
     [NewError ["Name"] RequiredError "Required"; NewError ["Author"] RequiredError "Required"]
     = bindErrors ++ validateErrs) /\
  (exists builtin,
     validateStruct [] Post (Zero Post) = Return builtin /\
     [NewError ["Title"] RequiredError "Required";
      NewError ["Title"] "LengthError" "Life is too short"]
     = Post_ValidateBinder (Zero Post) (form_request "POST" formContentType ∅) builtin) /\
  (exists nested rules,
     validateStruct [] Person (Zero Person) = Return nested /\
     matchRules [] Author_field (Zero Person) (Zero Person) ["Required"] = Return rules).
Proof.
  destruct errors_in_discovery_order as (Hentry & _ & _ & Hhook & _ & Hfields).
  split; [|split].
  - apply (Hentry (TPtr Signed) (VPtr (Some (Zero Signed)))
             (form_request "POST" formContentType ∅)
             Signed (Zero Signed) (fun x => VPtr (Some x)) (VPtr (Some (Zero Signed)))).
    + reflexivity.
    + vm_compute. reflexivity.
  - destruct (Hhook Post (Zero Post) (form_request "POST" formContentType ∅)
                [NewError ["Title"] RequiredError "Required";
                 NewError ["Title"] "LengthError" "Life is too short"]
                ltac:(eexists _, _; left; reflexivity)
                ltac:(vm_compute; reflexivity))
      as (builtin & Hb & Hout).
    exists builtin. split; [exact Hb | exact Hout].
  - destruct (Hfields [] "Signed" [Author_field] [Zero Person]
                [NewError ["Name"] RequiredError "Required";
                 NewError ["Author"] RequiredError "Required"]
                0%nat Author_field (Zero Person)
                ltac:(vm_compute; reflexivity) eq_refl eq_refl)
      as (before & nested & rules & after & _ & _ & Hn & Hr & _).
    exists nested, rules. split; [exact Hn | exact Hr].
Defined.


(** [setWithProperType_total] on an [int8] field and the literal 300, which
    is stored as 44. *)
Lemma setWithProperType_total_witness :
  setWithProperType reflect.Int8 "300" (mkValue flag_settable (TInt W8) (VInt 0)) "n" []
  = Return (VInt 44, []).
Proof.
  destruct (setWithProperType_total flag_settable (TInt W8) (VInt 0) "300" "n" []
              eq_refl eq_refl) as (_ & Hint & _).
  apply (Hint W8 300 eq_refl ltac:(discriminate) eq_refl).
Defined.

(** ** The further properties at concrete inputs *)

(** [setWithProperType_exact] on an [int8] field and the literal -100, and
    on a [uint] field and the largest literal that parses. *)
Lemma setWithProperType_exact_witness :
  setWithProperType reflect.Int8 "-100" (mkValue flag_settable (TInt W8) (VInt 0)) "n" []
  = Return (VInt (-100), []) /\
  setWithProperType reflect.Uint "18446744073709551615"
    (mkValue flag_settable (TUint W) (VUint 0)) "n" []
  = Return (VUint 18446744073709551615, []).
Proof.
  split.
  - apply (proj1 (setWithProperType_exact flag_settable W8 (VInt 0) "-100" "n" [] (-100)
                    eq_refl ltac:(discriminate))).
    + vm_compute. reflexivity.
    + left. simpl. lia.
  - apply (proj2 (setWithProperType_exact flag_settable W (VUint 0) "18446744073709551615"
                    "n" [] 18446744073709551615 eq_refl ltac:(discriminate))).
    + vm_compute. reflexivity.
    + right. reflexivity.
Defined.

(** [setWithProperType_empty] on an [int16] field that holds 7 and on a
    boolean field that holds true. *)
Lemma setWithProperType_empty_witness :
  setWithProperType reflect.Int16 "" (mkValue flag_settable (TInt W16) (VInt 7)) "n" []
  = Return (VInt 0, []) /\
  setWithProperType reflect.Bool "" (mkValue flag_settable TBool (VBool true)) "n" []
  = Return (VBool true, []).
Proof.
  split.
  - apply (proj1 (setWithProperType_empty flag_settable (VInt 7) "n" [] eq_refl) W16).
  - apply (proj2 (proj2 (proj2 (setWithProperType_empty flag_settable (VBool true) "n" []
                                  eq_refl)))).
Defined.



(** [mapForm_unexported_field] on a [Private] record and a form that holds
    the key of its field. *)
Lemma mapForm_unexported_field_witness :
  mapForm flag_settable Private (VStruct [VString "kept"]) secret_form ∅ []
  = Return (VStruct [VString "kept"]) /\
  exists vs', VStruct [VString "kept"] = VStruct vs' /\ vs' !! 0%nat = Some (VString "kept").
Proof.
  assert (Hrun : mapForm flag_settable Private (VStruct [VString "kept"]) secret_form ∅ []
                 = Return (VStruct [VString "kept"])) by (vm_compute; reflexivity).
  split; [exact Hrun|].
  exact (mapForm_unexported_field flag_settable "Private" [secret_field] [VString "kept"]
           secret_form ∅ [] 0 secret_field (VString "kept") (VStruct [VString "kept"])
           eq_refl eq_refl eq_refl eq_refl Hrun).
Defined.

(** [mapForm_has_type] on Al's record bound from name=Bob. *)
Lemma mapForm_has_type_witness :
  has_type Person (VStruct [VString "Bob"; VString "al@example.org"]) = true.
Proof.
  apply (mapForm_has_type flag_settable Person al bob_form ∅ []
           (VStruct [VString "Bob"; VString "al@example.org"]) files_ok_empty eq_refl).
  vm_compute. reflexivity.
Defined.

(** [mapForm_returns] on an [EmbedPerson] that points to Al's record, bound
    from name=Bob. *)
Lemma mapForm_returns_witness :
  exists vs',
    mapForm flag_settable EmbedPerson (VStruct [VPtr (Some al)]) bob_form ∅ []
    = Return (VStruct vs') /\
    (files_ok ∅ -> has_type EmbedPerson (VStruct vs') = true).
Proof.
  exact (mapForm_returns flag_settable "EmbedPerson" [Person_field] [VPtr (Some al)]
           bob_form ∅ [] eq_refl eq_refl
           (lists_ok_singleton "name" ["Bob"] ltac:(discriminate)) lists_ok_empty).
Defined.

(** [Form_returns] on a pointer to Al's record and the request name=Bob. *)
Lemma Form_returns_witness :
  exists vs' found,
    validateStruct [] Person (VStruct vs') = Return found /\
    Form (TPtr Person) (VPtr (Some al)) (form_request "POST" formContentType bob_form)
    = Return (VPtr (Some (VStruct vs')), [] ++ found) /\
    has_type Person (VStruct vs') = true.
Proof.
  apply (Form_returns "Person" [Name_field; Email_field]
           [VString "Al"; VString "al@example.org"]
           (form_request "POST" formContentType bob_form)).
  - reflexivity.
  - reflexivity.
  - reflexivity.
  - vm_compute. reflexivity.
  - apply lists_ok_singleton. discriminate.
Defined.

(** [MultipartForm_returns] on a pointer to a zero [Upload] and a request
    whose multipart form holds name=Bob and two header images. *)
Lemma MultipartForm_returns_witness :
  exists vs' bindErrors found,
    Forall binder_error bindErrors /\
    validateStruct [] Upload (VStruct vs') = Return found /\
    MultipartForm (TPtr Upload) (VPtr (Some (Zero Upload))) (multipart_request upload)
    = Return (VPtr (Some (VStruct vs')), bindErrors ++ found) /\
    has_type Upload (VStruct vs') = true.
Proof.
  apply (MultipartForm_returns "Upload" [Name_field; HeaderImage_field; Pictures_field]
           [VString ""; VPtr None; VSlice None] (multipart_request upload) upload).
  - reflexivity.
  - reflexivity.
  - reflexivity.
  - vm_compute. reflexivity.
  - left. reflexivity.
  - apply lists_ok_singleton. discriminate.
  - apply lists_ok_singleton. discriminate.
  - apply files_ok_singleton. reflexivity.
Defined.

(** [mapForm_empty_request] on a zero [EmbedPerson]. *)
Lemma mapForm_empty_request_witness :
  mapForm flag_settable EmbedPerson (Zero EmbedPerson) ∅ ∅ [] = Return (VStruct [VPtr None]) /\
  VStruct [VPtr None] = Zero EmbedPerson.
Proof.
  assert (Hrun : mapForm flag_settable EmbedPerson (Zero EmbedPerson) ∅ ∅ []
                 = Return (VStruct [VPtr None])) by (vm_compute; reflexivity).
  split; [exact Hrun|].
  exact (mapForm_empty_request flag_settable "EmbedPerson" [Person_field] []
           (VStruct [VPtr None]) Hrun).
Defined.

(** [entry_rejects_argument] on a [Person] passed by value to [Json] and on
    a nil [*Person] passed to [Form]. *)
Lemma entry_rejects_argument_witness :
  Json Person al (form_request "POST" "application/json" ∅)
  = Return (al, [ErrorInputNotByReference]) /\
  Form (TPtr Person) (VPtr None) (form_request "POST" formContentType bob_form)
  = Return (VPtr None, [ErrorInputIsNotStructure]).
Proof.
  split.
  - apply (proj1 (entry_rejects_argument Json Person al
                    (form_request "POST" "application/json" ∅)
                    (or_intror (or_intror eq_refl)))).
    intros elem. vm_compute. discriminate.
  - apply (proj2 (entry_rejects_argument Form (TPtr Person) (VPtr None)
                    (form_request "POST" formContentType bob_form)
                    (or_introl eq_refl)) Person eq_refl).
    left. reflexivity.
Defined.


(** [validateStruct_malformed_rule] on a [Broken] record. *)
Lemma validateStruct_malformed_rule_witness :
  rules_of short_field = ["MinSize("] /\
  forall out, validateStruct [] Broken (VStruct [VString "Bob"]) <> Return out.
Proof.
  split; [reflexivity|].
  apply (validateStruct_malformed_rule [] "Broken" [short_field] [VString "Bob"] 0
           short_field (VString "Bob") eq_refl eq_refl eq_refl).
  left. left. reflexivity.
Defined.

(** [validateStruct_appends] on a zero [Person] and an accumulator that
    holds one error. *)
Lemma validateStruct_appends_witness :
  exists found,
    [ErrorEmptyContentType; NewError ["Name"] RequiredError "Required"]
    = [ErrorEmptyContentType] ++ found /\
    forall errors, validateStruct errors Person (Zero Person) = Return (errors ++ found).
Proof.
  exact (validateStruct_appends Person (Zero Person) [ErrorEmptyContentType]
           [ErrorEmptyContentType; NewError ["Name"] RequiredError "Required"]
           ltac:(vm_compute; reflexivity)).
Defined.

(** [validateStruct_errors] on a zero [Person]. *)
Lemma validateStruct_errors_witness :
  Forall (fun e => named_in (declared_names Person) e /\ In (Classification e) rule_classes)
    [NewError ["Name"] RequiredError "Required"].
Proof.
  apply (validateStruct_errors Person (Zero Person)).
  vm_compute. reflexivity.
Defined.

(** [bind_then_Required] on the field [Id] of a [BlogPost] and the form
    id=0, and on the field [Name] of a [Person] and the form name=Bob. *)
Lemma bind_then_Required_witness :
  (mapField flag_settable Id_field (VInt 7) id_form ∅ [] = Return (VInt 0) /\
   matchRule [] Id_field (VInt 0) (VInt 0) "Required"
   = Return [NewError ["Id"] RequiredError "Required"]) /\
  (mapField flag_settable Name_field (VString "") bob_form ∅ [] = Return (VString "Bob") /\
   matchRule [] Name_field (VString "Bob") (VString "") "Required" = Return []).
Proof.
  split.
  - exact (proj2 (bind_then_Required flag_settable Id_field (VInt 7) id_form ∅ [] "0" []
                    ltac:(vm_compute; discriminate) eq_refl ltac:(vm_compute; reflexivity))
             W 0 eq_refl ltac:(vm_compute; reflexivity)).
  - exact (proj1 (bind_then_Required flag_settable Name_field (VString "") bob_form ∅ []
                    "Bob" [] ltac:(vm_compute; discriminate) eq_refl
                    ltac:(vm_compute; reflexivity))
             eq_refl).
Defined.

(** [embedded_unexported_record] on an embedded [post] at its zero value and
    the form title=Hello. *)
Lemma embedded_unexported_record_witness :
  mapField flag_settable post_field (Zero Post) title_form ∅ []
  = mapField flag_settable (as_exported post_field) (Zero Post) title_form ∅ [] /\
  validateField [] post_field (Zero Post) = Return [].
Proof.
  exact (embedded_unexported_record flag_settable post_field (Zero Post) title_form ∅ [] []
           "Post" _ eq_refl eq_refl eq_refl).
Defined.

(** [Form_binds_the_form] on a pointer to Al's record and two requests whose
    form is name=Bob: a POST, and a GET whose [ParseForm] reports an
    error. *)
Lemma Form_binds_the_form_witness :
  bound (Form (TPtr Person) (VPtr (Some al)) (form_request "POST" formContentType bob_form))
  = bound (Form (TPtr Person) (VPtr (Some al)) failing_request).
Proof.
  apply (Form_binds_the_form (TPtr Person) (VPtr (Some al))
           (form_request "POST" formContentType bob_form) failing_request);
    [|reflexivity].
  intros t d rebuild Ht. injection Ht as <- _ _. vm_compute. reflexivity.
Defined.

(** [Json_returns] on a pointer to Al's record: a request without a body,
    and a request with one. *)
Lemma Json_returns_witness :
  (exists errs,
     validateStruct [] Person al = Return errs /\
     Json (TPtr Person) (VPtr (Some al)) (form_request "POST" "application/json" ∅)
     = Return (VPtr (Some al), errs)) /\
  (exists errs,
     validateStruct [] Person al = Return errs /\
     Json (TPtr Person) (VPtr (Some al)) (json_request "{}")
     = Return (VPtr (Some al), [] ++ errs)).
Proof.
  assert (Hhook : Validator_of (TPtr Person) = None) by (vm_compute; reflexivity).
  split.
  - exact (proj1 (Json_returns "Person" [Name_field; Email_field]
                    [VString "Al"; VString "al@example.org"]
                    (form_request "POST" "application/json" ∅) eq_refl Hhook)
             eq_refl eq_refl).
  - exact (proj2 (Json_returns "Person" [Name_field; Email_field]
                    [VString "Al"; VString "al@example.org"] (json_request "{}") eq_refl
                    Hhook)
             "{}" [VString "Al"; VString "al@example.org"] None eq_refl eq_refl eq_refl).
Defined.
